(** * Verification of the BERT example of smelte_rs (examples/bert.rs)

    Shallow embedding of the weight-loading, model-assembly and
    label-ranking code of [examples/bert.rs].  A Rust panic ([unwrap] on
    [None]/[Err], a failed [assert_eq!], an out-of-bounds index) is modelled
    as [None] in the [option] monad. *)

From Stdlib Require Import String.
From Stdlib Require Import List Bool Arith ZArith Lia.
From Stdlib Require Import Strings.Byte.
From Stdlib Require Import DecimalString Sorting.Permutation Sorting.Sorted.
Import ListNotations.

(** ** Option monad used for panics *)
Notation "x <- c1 ;; c2" := (match c1 with Some x => c2 | None => None end)
  (at level 61, c1 at next level, right associativity).

(** ** Floats as bit patterns

    An [f32] value is determined by its 32 bit IEEE-754 pattern; [f32::from_bits]
    and [f32::to_bits] are inverse, so NaN payloads and infinities are kept
    exactly.  Bit-identical sequences are identical float sequences. *)
Record f32 := f32_from_bits { to_bits : Z }.

(** Little-endian value of a byte sequence. *)
Fixpoint le_value (bs : list byte) : Z :=
  match bs with
  | [] => 0%Z
  | b :: rest => (Z.of_N (Byte.to_N b) + 256 * le_value rest)%Z
  end.

(** [f32::from_le_bytes] and [f32::from_be_bytes] on a 4-byte array. *)
Definition from_le_bytes (bs : list byte) : f32 := f32_from_bits (le_value bs).
Definition from_be_bytes (bs : list byte) : f32 := f32_from_bits (le_value (rev bs)).

(** Byte order of the compilation target: a load through [*const f32] reads
    the four bytes in native order ([f32::from_ne_bytes]). *)
Inductive Endian := Little | Big.

Definition from_ne_bytes (e : Endian) (bs : list byte) : f32 :=
  match e with
  | Little => from_le_bytes bs
  | Big => from_be_bytes bs
  end.

(** ** Tensor views (safetensors::tensor::{Dtype, TensorView}) *)
Inductive Dtype :=
  | BOOL | U8 | I8 | I16 | U16 | F16 | BF16 | I32 | U32 | F32 | F64 | I64 | U64.

Definition Dtype_eqb (a b : Dtype) : bool :=
  if (ltac:(decide equality) : {a = b} + {a <> b}) then true else false.

(** A view borrows [data] from the memory-mapped file; [addr] is the address
    of its first byte ([v.as_ptr() as usize]). *)
Record TensorView := mkView {
  dtype : Dtype;
  shape : list nat;
  data : list byte;
  addr : nat
}.

(** [std::borrow::Cow<'static, [f32]>] *)
Inductive Cow := Borrowed (s : list f32) | Owned (s : list f32).

Definition cow_deref (c : Cow) : list f32 :=
  match c with Borrowed s | Owned s => s end.

(** The 4-byte group starting at byte [k * 4]. *)
Definition group (v : list byte) (k : nat) : list byte :=
  firstn 4 (skipn (k * 4) v).

(** Aligned path: [std::slice::from_raw_parts(v.as_ptr() as *const f32, v.len() / 4)]:
    element [k] is the native-order load of bytes [4k .. 4k+3]. *)
Definition borrowed_view (e : Endian) (v : list byte) : list f32 :=
  map (fun k => from_ne_bytes e (group v k)) (seq 0 (length v / 4)).

(** Misaligned path: the [while i < v.len()] loop.  Each [v[j]] is
    bounds-checked ([nth_error]); the fuel [length v] is never exhausted
    since the loop runs at most [ceil(len/4)] times. *)
Fixpoint copy_loop (fuel : nat) (v : list byte) (i : nat) (c : list f32)
  : option (list f32) :=
  match fuel with
  | O => Some c
  | S fuel' =>
      if Nat.ltb i (length v) then
        b0 <- nth_error v i ;;
        b1 <- nth_error v (i + 1) ;;
        b2 <- nth_error v (i + 2) ;;
        b3 <- nth_error v (i + 3) ;;
        copy_loop fuel' v (i + 4) (c ++ [from_le_bytes [b0; b1; b2; b3]])
      else Some c
  end.

(** The body of [to_f32] after the dtype assertion: the alignment test on
    [v.as_ptr()] and the two paths. *)
Definition f32_conversion (e : Endian) (v : list byte) (ptr : nat) : option Cow :=
  if Nat.eqb (Nat.modulo ptr 4) 0 then
    Some (Borrowed (borrowed_view e v))
  else
    c <- copy_loop (length v) v 0 [] ;;
    Some (Owned c).

(** [to_f32]: [assert_eq!(view.dtype(), Dtype::F32)], then the conversion of
    [view.data()]; [e] is the byte order of the target. *)
Definition to_f32 (e : Endian) (view : TensorView) : option Cow :=
  if Dtype_eqb (dtype view) F32 then f32_conversion e (data view) (addr view)
  else None.

(** Reference decoding following the spec's words: [len/4] floats, the
    [k]-th one the little-endian decoding of the [k]-th 4-byte group. *)
Definition le_decode_spec (v : list byte) : list f32 :=
  map (fun k => from_le_bytes (group v k)) (seq 0 (length v / 4)).

(** ** Modules of smelte_rs (smelte_rs::nn::layers, smelte_rs::nn::models::bert) *)

(** Modelled from the spec: the module types of the smelte_rs library, which
    are not under src/.  Each [new] constructor stores its arguments: a
    module owns its tensors and child modules, the tree mirroring the
    bundle's naming hierarchy. *)
Record Linear (T : Type) := mkLinear { linear_weight : T; linear_bias : T }.
Record Embedding (T : Type) := mkEmbedding { embedding_weight : T }.
Record LayerNorm (T : Type) := mkLayerNorm {
  ln_weight : T; ln_bias : T; ln_epsilon : f32 }.
Record BertAttention (T : Type) := mkBertAttention {
  query : Linear T; key : Linear T; value : Linear T;
  attn_output : Linear T; attn_output_ln : LayerNorm T }.
Record Mlp (T : Type) := mkMlp {
  intermediate : Linear T; mlp_output : Linear T; mlp_output_ln : LayerNorm T }.
Record BertLayer (T : Type) := mkBertLayer {
  attention : BertAttention T; mlp : Mlp T }.
Record BertEncoder (T : Type) := mkBertEncoder { layers : list (BertLayer T) }.
Record BertEmbeddings (T : Type) := mkBertEmbeddings {
  input_embeddings : Embedding T; position_embeddings : Embedding T;
  type_embeddings : Embedding T; emb_layer_norm : LayerNorm T }.
Record Bert (T : Type) := mkBert { embeddings : BertEmbeddings T; encoder : BertEncoder T }.
Record BertPooler (T : Type) := mkBertPooler { pooler_dense : Linear T }.
Record BertClassifier (T : Type) := mkBertClassifier {
  bert : Bert T; pooler : BertPooler T; classifier : Linear T }.

Arguments mkLinear {T}. Arguments mkEmbedding {T}. Arguments mkLayerNorm {T}.
Arguments mkBertAttention {T}. Arguments mkMlp {T}. Arguments mkBertLayer {T}.
Arguments mkBertEncoder {T}. Arguments mkBertEmbeddings {T}. Arguments mkBert {T}.
Arguments mkBertPooler {T}. Arguments mkBertClassifier {T}.
Arguments linear_weight {T}.
Arguments linear_bias {T}.
Arguments embedding_weight {T}.
Arguments ln_weight {T}.
Arguments ln_bias {T}.
Arguments ln_epsilon {T}.
Arguments query {T}.
Arguments key {T}.
Arguments value {T}.
Arguments attn_output {T}.
Arguments attn_output_ln {T}.
Arguments intermediate {T}.
Arguments mlp_output {T}.
Arguments mlp_output_ln {T}.
Arguments attention {T}.
Arguments mlp {T}.
Arguments layers {T}.
Arguments input_embeddings {T}.
Arguments position_embeddings {T}.
Arguments type_embeddings {T}.
Arguments emb_layer_norm {T}.
Arguments embeddings {T}.
Arguments encoder {T}.
Arguments pooler_dense {T}.
Arguments bert {T}.
Arguments pooler {T}.
Arguments classifier {T}.

(** [format!("{}", i)] for a [usize]. *)
Definition usize_to_string (n : nat) : string :=
  NilZero.string_of_uint (Nat.to_uint n).

(** The bundle as the code uses it: [SafeTensors::tensor(name)], with
    [Err(TensorNotFound)] as [None]. *)
Definition SafeTensors := string -> option TensorView.

(** [1e-5_f32] *)
Definition layer_norm_epsilon : f32 := f32_from_bits 925353388%Z.

(** [map(...).collect::<Vec<_>>()] of closures that panic: the first panic
    aborts the whole collection. *)
Fixpoint map_option {A B : Type} (f : A -> option B) (l : list A) : option (list B) :=
  match l with
  | [] => Some []
  | x :: rest => y <- f x ;; ys <- map_option f rest ;; Some (y :: ys)
  end.

(** "bert.encoder.layer.{index}." ++ [suffix] *)
Definition layer_prefix (index : nat) (suffix : string) : string :=
  ("bert.encoder.layer." ++ usize_to_string index ++ "." ++ suffix)%string.

Section Assembly.

(** The tensor type of the selected backend ([cpu::f32::Tensor] or
    [gpu::f32::Tensor]). *)
Variable Tensor : Type.
(** Byte order of the target, used by [to_f32]. *)
Variable target : Endian.
(** [Tensor::from_cpu(data, shape, device)] on the fixed [device], [Err] as
    [None]. *)
Variable from_cpu : list f32 -> list nat -> option Tensor.

Definition to_tensor (view : TensorView) : option Tensor :=
  d <- to_f32 target view ;;
  from_cpu (cow_deref d) (shape view).

Definition linear_from (weights bias : TensorView) : option (Linear Tensor) :=
  w <- to_tensor weights ;;
  b <- to_tensor bias ;;
  Some (mkLinear w b).

Definition linear_from_prefix (prefix : string) (tensors : SafeTensors)
  : option (Linear Tensor) :=
  weights <- tensors (prefix ++ ".weight")%string ;;
  bias <- tensors (prefix ++ ".bias")%string ;;
  linear_from weights bias.

Definition embedding_from (weights : TensorView) : option (Embedding Tensor) :=
  w <- to_tensor weights ;;
  Some (mkEmbedding w).

Definition layer_norm_from_prefix (prefix : string) (tensors : SafeTensors)
  : option (LayerNorm Tensor) :=
  let epsilon := layer_norm_epsilon in
  match tensors (prefix ++ ".weight")%string, tensors (prefix ++ ".bias")%string with
  | Some weight, Some bias =>
      w <- to_tensor weight ;;
      b <- to_tensor bias ;;
      Some (mkLayerNorm w b epsilon)
  | _, _ =>
      gamma <- tensors (prefix ++ ".gamma")%string ;;
      w <- to_tensor gamma ;;
      beta <- tensors (prefix ++ ".beta")%string ;;
      b <- to_tensor beta ;;
      Some (mkLayerNorm w b epsilon)
  end.

Definition bert_attention_from_tensors (index : nat) (tensors : SafeTensors)
  : option (BertAttention Tensor) :=
  query <- linear_from_prefix (layer_prefix index "attention.self.query") tensors ;;
  key <- linear_from_prefix (layer_prefix index "attention.self.key") tensors ;;
  value <- linear_from_prefix (layer_prefix index "attention.self.value") tensors ;;
  output <- linear_from_prefix (layer_prefix index "attention.output.dense") tensors ;;
  output_ln <- layer_norm_from_prefix (layer_prefix index "attention.output.LayerNorm") tensors ;;
  Some (mkBertAttention query key value output output_ln).

Definition bert_mlp_from_tensors (index : nat) (tensors : SafeTensors)
  : option (Mlp Tensor) :=
  intermediate <- linear_from_prefix (layer_prefix index "intermediate.dense") tensors ;;
  output <- linear_from_prefix (layer_prefix index "output.dense") tensors ;;
  output_ln <- layer_norm_from_prefix (layer_prefix index "output.LayerNorm") tensors ;;
  Some (mkMlp intermediate output output_ln).

Definition bert_layer_from_tensors (index : nat) (tensors : SafeTensors)
  : option (BertLayer Tensor) :=
  attention <- bert_attention_from_tensors index tensors ;;
  mlp <- bert_mlp_from_tensors index tensors ;;
  Some (mkBertLayer attention mlp).

(** [BertEncoder::from_tensors]: layers [0..12]. *)
Definition BertEncoder_from_tensors (tensors : SafeTensors) : option (BertEncoder Tensor) :=
  layers <- map_option (fun i => bert_layer_from_tensors i tensors) (seq 0 12) ;;
  Some (mkBertEncoder layers).

Definition BertEmbeddings_from_tensors (tensors : SafeTensors)
  : option (BertEmbeddings Tensor) :=
  w <- tensors "bert.embeddings.word_embeddings.weight"%string ;;
  input_embeddings <- embedding_from w ;;
  p <- tensors "bert.embeddings.position_embeddings.weight"%string ;;
  position_embeddings <- embedding_from p ;;
  t <- tensors "bert.embeddings.token_type_embeddings.weight"%string ;;
  type_embeddings <- embedding_from t ;;
  layer_norm <- layer_norm_from_prefix "bert.embeddings.LayerNorm" tensors ;;
  Some (mkBertEmbeddings input_embeddings position_embeddings type_embeddings layer_norm).

Definition Bert_from_tensors (tensors : SafeTensors) : option (Bert Tensor) :=
  embeddings <- BertEmbeddings_from_tensors tensors ;;
  encoder <- BertEncoder_from_tensors tensors ;;
  Some (mkBert embeddings encoder).

Definition BertPooler_from_tensors (tensors : SafeTensors) : option (BertPooler Tensor) :=
  w <- tensors "bert.pooler.dense.weight"%string ;;
  b <- tensors "bert.pooler.dense.bias"%string ;;
  pooler <- linear_from w b ;;
  Some (mkBertPooler pooler).

(** The [let (weight, bias) = if let (Ok(weight), Ok(bias)) = ... else ...]
    of [BertClassifier::from_tensors]. *)
Definition classifier_head_views (tensors : SafeTensors)
  : option (TensorView * TensorView) :=
  match tensors "classifier.weight"%string, tensors "classifier.bias"%string with
  | Some weight, Some bias => Some (weight, bias)
  | _, _ =>
      weight <- tensors "cls.seq_relationship.weight"%string ;;
      bias <- tensors "cls.seq_relationship.bias"%string ;;
      Some (weight, bias)
  end.

Definition BertClassifier_from_tensors (tensors : SafeTensors)
  : option (BertClassifier Tensor) :=
  pooler <- BertPooler_from_tensors tensors ;;
  bert <- Bert_from_tensors tensors ;;
  wb <- classifier_head_views tensors ;;
  classifier <- linear_from (fst wb) (snd wb) ;;
  Some (mkBertClassifier bert pooler classifier).

(** A LayerNorm built from a weight and a bias view, as both branches of
    [layer_norm_from_prefix] build it. *)
Definition layer_norm_of (weight bias : TensorView) : option (LayerNorm Tensor) :=
  w <- to_tensor weight ;;
  b <- to_tensor bias ;;
  Some (mkLayerNorm w b layer_norm_epsilon).

End Assembly.

Arguments to_tensor {Tensor} target from_cpu view.
Arguments linear_from {Tensor} target from_cpu weights bias.
Arguments linear_from_prefix {Tensor} target from_cpu prefix tensors.
Arguments embedding_from {Tensor} target from_cpu weights.
Arguments layer_norm_from_prefix {Tensor} target from_cpu prefix tensors.
Arguments bert_attention_from_tensors {Tensor} target from_cpu index tensors.
Arguments bert_mlp_from_tensors {Tensor} target from_cpu index tensors.
Arguments bert_layer_from_tensors {Tensor} target from_cpu index tensors.
Arguments BertEncoder_from_tensors {Tensor} target from_cpu tensors.
Arguments BertEmbeddings_from_tensors {Tensor} target from_cpu tensors.
Arguments Bert_from_tensors {Tensor} target from_cpu tensors.
Arguments BertPooler_from_tensors {Tensor} target from_cpu tensors.
Arguments BertClassifier_from_tensors {Tensor} target from_cpu tensors.
Arguments layer_norm_of {Tensor} target from_cpu weight bias.

(** The required tensors of [BertClassifier::from_tensors]: each entry lists
    every name under which the assembler looks one tensor up (modern name
    first, legacy name second). *)
Definition linear_keys (prefix : string) : list (list string) :=
  [[prefix ++ ".weight"]; [prefix ++ ".bias"]]%string.

Definition layer_norm_keys (prefix : string) : list (list string) :=
  [[prefix ++ ".weight"; prefix ++ ".gamma"]; [prefix ++ ".bias"; prefix ++ ".beta"]]%string.

Definition layer_keys (index : nat) : list (list string) :=
  linear_keys (layer_prefix index "attention.self.query") ++
  linear_keys (layer_prefix index "attention.self.key") ++
  linear_keys (layer_prefix index "attention.self.value") ++
  linear_keys (layer_prefix index "attention.output.dense") ++
  layer_norm_keys (layer_prefix index "attention.output.LayerNorm") ++
  linear_keys (layer_prefix index "intermediate.dense") ++
  linear_keys (layer_prefix index "output.dense") ++
  layer_norm_keys (layer_prefix index "output.LayerNorm").

Definition required_tensors : list (list string) :=
  linear_keys "bert.pooler.dense" ++
  [["bert.embeddings.word_embeddings.weight"];
   ["bert.embeddings.position_embeddings.weight"];
   ["bert.embeddings.token_type_embeddings.weight"]]%string ++
  layer_norm_keys "bert.embeddings.LayerNorm" ++
  flat_map layer_keys (seq 0 12) ++
  [["classifier.weight"; "cls.seq_relationship.weight"];
   ["classifier.bias"; "cls.seq_relationship.bias"]]%string.

(** The tensors read by [BertEmbeddings::from_tensors]. *)
Definition embeddings_slots : list (list string) :=
  [["bert.embeddings.word_embeddings.weight"];
   ["bert.embeddings.position_embeddings.weight"];
   ["bert.embeddings.token_type_embeddings.weight"]]%string ++
  layer_norm_keys "bert.embeddings.LayerNorm".

(** ** Comparison of [f32] ([impl PartialOrd for f32]) *)

(** NaN: all exponent bits set and a non-zero mantissa. *)
Definition is_nan (x : f32) : bool :=
  let b := to_bits x in
  Z.eqb (Z.land (Z.shiftr b 23) 255) 255 && negb (Z.eqb (Z.land b 8388607) 0).

(** Position of a non-NaN float on the real line: sign and magnitude, with
    [+0.0] and [-0.0] both at [0]; infinities are the largest magnitudes. *)
Definition order_key (x : f32) : Z :=
  let b := to_bits x in
  let mag := Z.land b 2147483647 in
  if Z.testbit b 31 then Z.opp mag else mag.

(** [f32::partial_cmp]: [None] as soon as one side is NaN. *)
Definition f32_partial_cmp (a b : f32) : option comparison :=
  if is_nan a || is_nan b then None
  else Some (Z.compare (order_key a) (order_key b)).

(** [a <= b] and [a == b] on [f32] (the default methods of [PartialOrd] and
    [PartialEq]). *)
Definition f32_le (a b : f32) : Prop :=
  f32_partial_cmp a b = Some Lt \/ f32_partial_cmp a b = Some Eq.

Definition f32_eqb (a b : f32) : bool :=
  match f32_partial_cmp a b with Some Eq => true | _ => false end.

(** ** Labels ([Config], [get_label]) *)

(** The deserialized [HashMap<String, String>] as its list of entries (keys
    are distinct). *)
Definition HashMap := list (string * string).

Fixpoint hashmap_get (m : HashMap) (k : string) : option string :=
  match m with
  | [] => None
  | (k', v) :: rest => if String.eqb k k' then Some v else hashmap_get rest k
  end.

Record Config := mkConfig {
  num_attention_heads : nat;
  id2label : option HashMap
}.

Definition get_label (id2label : option HashMap) (i : nat) : option string :=
  m <- id2label ;;
  label <- hashmap_get m (usize_to_string i) ;;
  Some label.

Definition unwrap_or {A : Type} (o : option A) (d : A) : A :=
  match o with Some x => x | None => d end.

(** The label of class [i] in [run]:
    [get_label(id2label, i).unwrap_or(format!("LABEL_{}", i))]. *)
Definition label_of (id2label : option HashMap) (i : nat) : string :=
  unwrap_or (get_label id2label i) ("LABEL_" ++ usize_to_string i)%string.

(** [probs.cpu_data().unwrap().iter().enumerate().map(...).collect()] *)
Definition label_outputs (id2label : option HashMap) (probs : list f32)
  : list (string * f32) :=
  map (fun ip => (label_of id2label (fst ip), snd ip))
      (combine (seq 0 (length probs)) probs).

(** ** [outputs.sort_by(|a, b| b.1.partial_cmp(&a.1).unwrap())] *)

(** [is_less(a, b)] of the sort: the comparator returns [Less]; the [unwrap]
    panics on [None]. *)
Definition is_less (a b : string * f32) : option bool :=
  c <- f32_partial_cmp (snd b) (snd a) ;;
  Some (match c with Lt => true | _ => false end).

(** [insert_tail] of std's stable sort: the sorted prefix is kept reversed
    ([v[i-1]] first); the new element moves left while it [is_less] than its
    left neighbour, one comparison per step. *)
Fixpoint insert_tail (x : string * f32) (rev_prefix : list (string * f32))
  : option (list (string * f32)) :=
  match rev_prefix with
  | [] => Some [x]
  | h :: t =>
      less <- is_less x h ;;
      if less then (t' <- insert_tail x t ;; Some (h :: t'))
      else Some (x :: h :: t)
  end.

(** [insertion_sort_shift_left]: std's [slice::sort_by] on the short slices
    it receives here (one entry per class); every stable sort returns the
    same order whenever the comparator is a total order. *)
Fixpoint insertion_sort_shift_left (rev_prefix rest : list (string * f32))
  : option (list (string * f32)) :=
  match rest with
  | [] => Some (rev rev_prefix)
  | x :: rest' =>
      acc <- insert_tail x rev_prefix ;;
      insertion_sort_shift_left acc rest'
  end.

Definition sort_by_prob_desc (outputs : list (string * f32))
  : option (list (string * f32)) :=
  insertion_sort_shift_left [] outputs.

(** The ranked [(label, probability)] pairs printed by [run]. *)
Definition rank_outputs (id2label : option HashMap) (probs : list f32)
  : option (list (string * f32)) :=
  sort_by_prob_desc (label_outputs id2label probs).

(** Every slot of [slots] is found in [t] under one of its names. *)
Definition present (t : SafeTensors) (slots : list (list string)) : Prop :=
  Forall (fun slot => exists name, In name slot /\ t name <> None) slots.

(** Every slot of [slots] is found in [t] under one of its names, and the view
    found there is converted by [to_tensor]. *)
Definition loaded {Tensor : Type} (target : Endian)
  (from_cpu : list f32 -> list nat -> option Tensor)
  (t : SafeTensors) (slots : list (list string)) : Prop :=
  Forall (fun slot => exists name v x,
            In name slot /\ t name = Some v /\ to_tensor target from_cpu v = Some x)
         slots.

(** [t1] and [t2] answer the same for every name of [names]. *)
Definition agree (t1 t2 : SafeTensors) (names : list string) : Prop :=
  forall name, In name names -> t1 name = t2 name.

(** On every name of [names], [t1] and [t2] both miss the tensor, or hold
    views that [to_tensor] converts to the same result. *)
Definition same_views {Tensor : Type} (target : Endian)
  (from_cpu : list f32 -> list nat -> option Tensor)
  (t1 t2 : SafeTensors) (names : list string) : Prop :=
  forall name, In name names ->
    match t1 name, t2 name with
    | Some v1, Some v2 => to_tensor target from_cpu v1 = to_tensor target from_cpu v2
    | None, None => True
    | _, _ => False
    end.

(** The bundle [t] with the view stored under [name] placed at address
    [reloc name]: same dtype, shape and bytes. *)
Definition relocate (t : SafeTensors) (reloc : string -> nat) : SafeTensors :=
  fun name => option_map (fun v => mkView (dtype v) (shape v) (data v) (reloc name)) (t name).

(** * Proofs *)

(** Split a successful chain of [option] binds into its steps. *)
Ltac option_cases :=
  repeat match goal with
  | H : match ?c with Some _ => _ | None => None end = Some _ |- _ =>
      let E := fresh "E" in
      destruct c eqn:E; [|discriminate H]
  end.

(** Membership of a name in an explicit list of names. *)
Ltac in_names := cbn; repeat first [left; reflexivity | right].


(** ** Lemmas on [to_f32] *)

Lemma Dtype_eqb_spec (a b : Dtype) : Dtype_eqb a b = true <-> a = b.
Proof.
  unfold Dtype_eqb. destruct (_ : {a = b} + {a <> b}); split; congruence.
Qed.

Lemma group_split (v : list byte) (j : nat) :
  j * 4 + 4 <= length v ->
  exists b0 b1 b2 b3,
    nth_error v (j * 4) = Some b0 /\ nth_error v (j * 4 + 1) = Some b1 /\
    nth_error v (j * 4 + 2) = Some b2 /\ nth_error v (j * 4 + 3) = Some b3 /\
    group v j = [b0; b1; b2; b3].
Proof.
  intros H. unfold group.
  assert (Hl : 4 <= length (skipn (j * 4) v)) by (rewrite length_skipn; lia).
  replace (nth_error v (j * 4)) with (nth_error (skipn (j * 4) v) 0)
    by (rewrite nth_error_skipn; f_equal; lia).
  rewrite <- !nth_error_skipn.
  destruct (skipn (j * 4) v) as [|b0 [|b1 [|b2 [|b3 rest]]]];
    simpl in Hl; try lia.
  exists b0, b1, b2, b3. repeat split.
Qed.

(** [m] iterations of the copying loop, starting at a group boundary. *)
Lemma copy_loop_steps (v : list byte) :
  forall m fuel j c,
    j + m <= length v / 4 -> m <= fuel ->
    copy_loop fuel v (j * 4) c =
    copy_loop (fuel - m) v ((j + m) * 4)
      (c ++ map (fun k => from_le_bytes (group v k)) (seq j m)).
Proof.
  induction m as [|m IH]; intros fuel j c Hn Hf.
  - cbn [seq map]. rewrite Nat.sub_0_r, Nat.add_0_r, app_nil_r. reflexivity.
  - destruct fuel as [|fuel]; [lia|].
    pose proof (Nat.Div0.mul_div_le (length v) 4) as Hq.
    assert (Hj : j * 4 + 4 <= length v) by lia.
    destruct (group_split v j Hj) as (b0 & b1 & b2 & b3 & E0 & E1 & E2 & E3 & G).
    cbn [copy_loop]. rewrite (proj2 (Nat.ltb_lt _ _)) by lia.
    rewrite E0, E1, E2, E3.
    replace (j * 4 + 4) with (S j * 4) by lia.
    rewrite IH by lia.
    replace (S j + m) with (j + S m) by lia.
    cbn [seq map Nat.sub]. rewrite G, <- app_assoc. reflexivity.
Qed.

Lemma copy_loop_done (v : list byte) fuel i c :
  length v <= i -> copy_loop fuel v i c = Some c.
Proof.
  intros H. destruct fuel; cbn [copy_loop]; [reflexivity|].
  rewrite (proj2 (Nat.ltb_ge _ _)) by lia. reflexivity.
Qed.

(** A last, incomplete group makes [v[i + 3]] go out of bounds. *)
Lemma copy_loop_stuck (v : list byte) fuel i c :
  i < length v -> length v < i + 4 -> copy_loop (S fuel) v i c = None.
Proof.
  intros H1 H2. cbn [copy_loop]. rewrite (proj2 (Nat.ltb_lt _ _)) by lia.
  destruct (nth_error v i), (nth_error v (i + 1)), (nth_error v (i + 2));
    try reflexivity.
  rewrite (proj2 (nth_error_None v (i + 3))) by lia. reflexivity.
Qed.

Lemma copy_loop_whole (v : list byte) :
  Nat.modulo (length v) 4 = 0 ->
  copy_loop (length v) v 0 [] = Some (le_decode_spec v).
Proof.
  intros Hm.
  pose proof (Nat.div_mod_eq (length v) 4) as Hd.
  change (copy_loop (length v) v 0 []) with (copy_loop (length v) v (0 * 4) []).
  rewrite (copy_loop_steps v (length v / 4)) by lia.
  apply copy_loop_done. lia.
Qed.

Lemma copy_loop_partial (v : list byte) :
  Nat.modulo (length v) 4 <> 0 -> copy_loop (length v) v 0 [] = None.
Proof.
  intros Hm.
  pose proof (Nat.div_mod_eq (length v) 4) as Hd.
  pose proof (Nat.mod_upper_bound (length v) 4 ltac:(lia)) as Hu.
  change (copy_loop (length v) v 0 []) with (copy_loop (length v) v (0 * 4) []).
  rewrite (copy_loop_steps v (length v / 4)) by lia.
  replace (length v - length v / 4) with (S (length v - length v / 4 - 1)) by lia.
  apply copy_loop_stuck; lia.
Qed.

Lemma length_le_decode_spec (v : list byte) :
  length (le_decode_spec v) = length v / 4.
Proof. unfold le_decode_spec. rewrite length_map, length_seq. reflexivity. Qed.

(** ** Byte-to-float conversion *)

(** C1: on a little-endian target, an aligned and a misaligned buffer of the
    same bytes give the same [len/4] floats, each the little-endian decoding
    of its 4-byte group (bit for bit, so NaN and infinity patterns too). *)
Theorem to_f32_alignment_equivalence (shp : list nat) (v : list byte) (a_al a_mis : nat) :
  Nat.modulo (length v) 4 = 0 ->
  Nat.modulo a_al 4 = 0 -> Nat.modulo a_mis 4 <> 0 ->
  to_f32 Little (mkView F32 shp v a_al) = Some (Borrowed (le_decode_spec v)) /\
  to_f32 Little (mkView F32 shp v a_mis) = Some (Owned (le_decode_spec v)) /\
  length (le_decode_spec v) = length v / 4.
Proof.
  intros Hlen Hal Hmis. unfold to_f32, f32_conversion; cbn [dtype data addr].
  rewrite (proj2 (Dtype_eqb_spec F32 F32) eq_refl).
  rewrite (proj2 (Nat.eqb_eq _ _) Hal), (proj2 (Nat.eqb_neq _ _) Hmis).
  rewrite copy_loop_whole by exact Hlen.
  split; [reflexivity|]. split; [reflexivity|]. apply length_le_decode_spec.
Qed.

Lemma to_f32_alignment_equivalence_witness :
  let v := [x00; x00; xc0; x7f; x00; x00; x80; x7f; x01; x02; x03; x04] in
  (Nat.modulo (length v) 4 = 0 /\ Nat.modulo 8 4 = 0 /\ Nat.modulo 9 4 <> 0) /\
  (to_f32 Little (mkView F32 [3%nat] v 8) = Some (Borrowed (le_decode_spec v)) /\
   to_f32 Little (mkView F32 [3%nat] v 9) = Some (Owned (le_decode_spec v)) /\
   length (le_decode_spec v) = length v / 4).
Proof.
  intros v. split.
  - split; [reflexivity|]. split; [reflexivity|]. discriminate.
  - apply to_f32_alignment_equivalence; [reflexivity | reflexivity | discriminate].
Defined.

(** C8: [to_f32] asserts the dtype: an [F32] view passes the assertion and is
    converted; a view of any other dtype makes the call abort. *)
Theorem to_f32_dtype_assertion (e : Endian) (view : TensorView) :
  (dtype view = F32 ->
   to_f32 e view = f32_conversion e (data view) (addr view)) /\
  (dtype view <> F32 -> to_f32 e view = None).
Proof.
  unfold to_f32. split; intros H.
  - rewrite (proj2 (Dtype_eqb_spec _ _) H). reflexivity.
  - destruct (Dtype_eqb (dtype view) F32) eqn:E; [|reflexivity].
    apply Dtype_eqb_spec in E. contradiction.
Qed.

Lemma to_f32_dtype_assertion_witness :
  to_f32 Little (mkView F32 [1%nat] [x00; x00; x80; x3f] 0)
    = f32_conversion Little [x00; x00; x80; x3f] 0 /\
  to_f32 Little (mkView F16 [2%nat] [x00; x3c; x00; x3c] 0) = None.
Proof.
  split.
  - apply (proj1 (to_f32_dtype_assertion Little (mkView F32 [1%nat] [x00; x00; x80; x3f] 0))).
    reflexivity.
  - apply (proj2 (to_f32_dtype_assertion Little (mkView F16 [2%nat] [x00; x3c; x00; x3c] 0))).
    discriminate.
Defined.

(** C9: with a length that is not a multiple of 4 the paths diverge: the
    aligned path truncates to [len/4] floats, the copying loop aborts on an
    out-of-bounds index. *)
Theorem to_f32_partial_group (e : Endian) (shp : list nat) (v : list byte) (a_al a_mis : nat) :
  Nat.modulo (length v) 4 <> 0 ->
  Nat.modulo a_al 4 = 0 -> Nat.modulo a_mis 4 <> 0 ->
  to_f32 e (mkView F32 shp v a_al) = Some (Borrowed (borrowed_view e v)) /\
  length (borrowed_view e v) = length v / 4 /\
  to_f32 e (mkView F32 shp v a_mis) = None.
Proof.
  intros Hlen Hal Hmis. unfold to_f32, f32_conversion; cbn [dtype data addr].
  rewrite (proj2 (Dtype_eqb_spec F32 F32) eq_refl).
  rewrite (proj2 (Nat.eqb_eq _ _) Hal), (proj2 (Nat.eqb_neq _ _) Hmis).
  rewrite copy_loop_partial by exact Hlen.
  split; [reflexivity|]. split; [|reflexivity].
  unfold borrowed_view. rewrite length_map, length_seq. reflexivity.
Qed.

Lemma to_f32_partial_group_witness :
  let v := [x00; x00; x80; x3f; x01; x02] in
  (Nat.modulo (length v) 4 <> 0 /\ Nat.modulo 4 4 = 0 /\ Nat.modulo 5 4 <> 0) /\
  (to_f32 Little (mkView F32 [1%nat] v 4) = Some (Borrowed (borrowed_view Little v)) /\
   length (borrowed_view Little v) = length v / 4 /\
   to_f32 Little (mkView F32 [1%nat] v 5) = None).
Proof.
  intros v. split.
  - split; [discriminate|]. split; [reflexivity|discriminate].
  - apply to_f32_partial_group; [discriminate | reflexivity | discriminate].
Defined.

(** ** Model assembly *)

Example layer_prefix_11 :
  layer_prefix 11 "output.dense" = "bert.encoder.layer.11.output.dense"%string.
Proof. reflexivity. Qed.

Example layer_prefix_0 :
  layer_prefix 0 "intermediate.dense" = "bert.encoder.layer.0.intermediate.dense"%string.
Proof. reflexivity. Qed.

Lemma map_option_spec {A B : Type} (f : A -> option B) :
  forall l r, map_option f l = Some r ->
  length r = length l /\
  forall k y, nth_error r k = Some y -> exists x, nth_error l k = Some x /\ f x = Some y.
Proof.
  induction l as [|x l IH]; intros r H; cbn [map_option] in H.
  - injection H as <-. split; [reflexivity|]. intros [|k] y Hy; discriminate.
  - destruct (f x) as [y|] eqn:Ef; [|discriminate].
    destruct (map_option f l) as [ys|]; [|discriminate].
    injection H as <-. destruct (IH ys eq_refl) as [Hlen Hnth].
    split; [cbn; congruence|].
    intros [|k] z Hz; cbn in Hz |- *.
    + injection Hz as <-. exists x. split; [reflexivity|exact Ef].
    + apply Hnth, Hz.
Qed.

Lemma map_option_in {A B : Type} (f : A -> option B) l r x :
  map_option f l = Some r -> In x l -> exists y, f x = Some y.
Proof.
  revert r. induction l as [|x' l IH]; intros r H Hin; [destruct Hin|].
  cbn [map_option] in H.
  destruct (f x') as [y|] eqn:Ef; [|discriminate].
  destruct (map_option f l) as [ys|] eqn:Er; [|discriminate].
  destruct Hin as [<-|Hin]; [exists y; exact Ef|].
  exact (IH ys eq_refl Hin).
Qed.


Lemma present_app t a b : present t (a ++ b) <-> present t a /\ present t b.
Proof. unfold present. apply Forall_app. Qed.

Section AssemblyProofs.

Variable Tensor : Type.
Variable target : Endian.
Variable from_cpu : list f32 -> list nat -> option Tensor.

Lemma linear_from_prefix_present p t l :
  linear_from_prefix target from_cpu p t = Some l -> present t (linear_keys p).
Proof.
  unfold linear_from_prefix, present, linear_keys.
  destruct (t (p ++ ".weight")%string) eqn:Ew; [|discriminate].
  destruct (t (p ++ ".bias")%string) eqn:Eb; [|discriminate].
  intros _. repeat constructor.
  - exists (p ++ ".weight")%string. split; [left; reflexivity|congruence].
  - exists (p ++ ".bias")%string. split; [left; reflexivity|congruence].
Qed.

Lemma layer_norm_from_prefix_pairs p t l :
  layer_norm_from_prefix target from_cpu p t = Some l ->
  (t (p ++ ".weight")%string <> None /\ t (p ++ ".bias")%string <> None) \/
  (t (p ++ ".gamma")%string <> None /\ t (p ++ ".beta")%string <> None).
Proof.
  unfold layer_norm_from_prefix. intros H. cbv zeta in H.
  destruct (t (p ++ ".weight")%string) eqn:Ew, (t (p ++ ".bias")%string) eqn:Eb;
    [left; split; congruence | ..];
    option_cases; right; split; congruence.
Qed.

Lemma layer_norm_from_prefix_present p t l :
  layer_norm_from_prefix target from_cpu p t = Some l -> present t (layer_norm_keys p).
Proof.
  intros H. apply layer_norm_from_prefix_pairs in H.
  unfold present, layer_norm_keys. repeat constructor.
  - destruct H as [[H _]|[H _]]; eexists; split; [left; reflexivity | exact H
      | right; left; reflexivity | exact H].
  - destruct H as [[_ H]|[_ H]]; eexists; split; [left; reflexivity | exact H
      | right; left; reflexivity | exact H].
Qed.

Ltac present_step :=
  match goal with
  | H : linear_from_prefix _ _ ?p _ = Some _ |- present _ (linear_keys ?p) =>
      exact (linear_from_prefix_present _ _ _ H)
  | H : layer_norm_from_prefix _ _ ?p _ = Some _ |- present _ (layer_norm_keys ?p) =>
      exact (layer_norm_from_prefix_present _ _ _ H)
  end.

Lemma bert_layer_present i t l :
  bert_layer_from_tensors target from_cpu i t = Some l -> present t (layer_keys i).
Proof.
  unfold bert_layer_from_tensors, bert_attention_from_tensors, bert_mlp_from_tensors.
  intros H. option_cases.
  unfold layer_keys. rewrite !present_app.
  repeat split; present_step.
Qed.

Lemma encoder_present t e :
  BertEncoder_from_tensors target from_cpu t = Some e ->
  present t (flat_map layer_keys (seq 0 12)).
Proof.
  unfold BertEncoder_from_tensors. intros H. option_cases.
  unfold present. apply Forall_forall. intros slot Hin.
  apply in_flat_map in Hin as [i [Hi Hslot]].
  destruct (map_option_in _ _ _ _ E Hi) as [layer Hl].
  apply bert_layer_present in Hl.
  exact (proj1 (Forall_forall _ _) Hl slot Hslot).
Qed.

Lemma classifier_head_present t wb :
  classifier_head_views t = Some wb ->
  present t [["classifier.weight"; "cls.seq_relationship.weight"];
             ["classifier.bias"; "cls.seq_relationship.bias"]]%string.
Proof.
  unfold classifier_head_views, present. intros H.
  destruct (t "classifier.weight"%string) eqn:Ew, (t "classifier.bias"%string) eqn:Eb;
    [ apply Forall_cons; [|apply Forall_cons; [|apply Forall_nil]];
      [ exists "classifier.weight"%string; split; [left; reflexivity | congruence]
      | exists "classifier.bias"%string; split; [left; reflexivity | congruence] ]
    | .. ].
  all: option_cases.
  all: apply Forall_cons; [|apply Forall_cons; [|apply Forall_nil]].
  all: first
    [ exists "cls.seq_relationship.weight"%string;
      split; [right; left; reflexivity | congruence]
    | exists "cls.seq_relationship.bias"%string;
      split; [right; left; reflexivity | congruence] ].
Qed.

Lemma single_present t name v :
  t name = Some v -> present t [[name]].
Proof.
  intros H. apply Forall_cons; [|apply Forall_nil].
  exists name. split; [left; reflexivity | congruence].
Qed.

Lemma classifier_present t m :
  BertClassifier_from_tensors target from_cpu t = Some m -> present t required_tensors.
Proof.
  unfold BertClassifier_from_tensors, BertPooler_from_tensors, Bert_from_tensors,
    BertEmbeddings_from_tensors.
  intros H. option_cases.
  unfold required_tensors. rewrite !present_app.
  repeat split.
  - unfold linear_keys. change [[?a]; [?b]] with ([[a]] ++ [[b]]).
    rewrite present_app. split; eapply single_present; eassumption.
  - change [[?a]; [?b]; [?c]] with ([[a]] ++ [[b]] ++ [[c]]).
    rewrite !present_app. repeat split; eapply single_present; eassumption.
  - present_step.
  - eapply encoder_present; eassumption.
  - eapply classifier_head_present; eassumption.
Qed.

(** C2: if every name under which the assembler looks up one required tensor
    (any of them, at any of the 12 layer indices) is absent from the bundle,
    [BertClassifier::from_tensors] aborts: no model, partial or whole. *)
Theorem missing_tensor_fails (t : SafeTensors) (slot : list string) :
  In slot required_tensors ->
  (forall name, In name slot -> t name = None) ->
  BertClassifier_from_tensors target from_cpu t = None.
Proof.
  intros Hin Habs.
  destruct (BertClassifier_from_tensors target from_cpu t) as [m|] eqn:E; [|reflexivity].
  exfalso. pose proof (classifier_present t m E) as Hp.
  unfold present in Hp. rewrite Forall_forall in Hp.
  destruct (Hp slot Hin) as [name [Hn Ht]].
  exact (Ht (Habs name Hn)).
Qed.

(** C5: [BertEncoder::from_tensors] builds exactly 12 layers, the [k]-th one
    from the names with index [k] substituted. *)
Theorem encoder_twelve_layers (t : SafeTensors) (e : BertEncoder Tensor) :
  BertEncoder_from_tensors target from_cpu t = Some e ->
  length (layers e) = 12%nat /\
  forall k l, nth_error (layers e) k = Some l ->
              bert_layer_from_tensors target from_cpu k t = Some l.
Proof.
  unfold BertEncoder_from_tensors. intros H. option_cases.
  injection H as <-. cbn [layers].
  destruct (map_option_spec _ _ _ E) as [Hlen Hnth].
  split; [rewrite Hlen, length_seq; reflexivity|].
  intros k lay Hk. destruct (Hnth k lay Hk) as [x [Hx Hf]].
  rewrite nth_error_seq in Hx. destruct (Nat.ltb k 12); [|discriminate].
  injection Hx as <-. exact Hf.
Qed.

Lemma layer_norm_modern p t w b :
  t (p ++ ".weight")%string = Some w -> t (p ++ ".bias")%string = Some b ->
  layer_norm_from_prefix target from_cpu p t = layer_norm_of target from_cpu w b.
Proof.
  intros Hw Hb. unfold layer_norm_from_prefix, layer_norm_of. cbv zeta.
  rewrite Hw, Hb. reflexivity.
Qed.

Lemma layer_norm_legacy p t :
  (t (p ++ ".weight")%string = None \/ t (p ++ ".bias")%string = None) ->
  layer_norm_from_prefix target from_cpu p t =
    (g <- t (p ++ ".gamma")%string ;;
     be <- t (p ++ ".beta")%string ;;
     layer_norm_of target from_cpu g be).
Proof.
  intros H. unfold layer_norm_from_prefix, layer_norm_of. cbv zeta.
  assert (Hm : forall A (k : TensorView -> TensorView -> A) (d : A),
             match t (p ++ ".weight")%string, t (p ++ ".bias")%string with
             | Some x, Some y => k x y | _, _ => d end = d).
  { intros A k d. destruct H as [H|H]; rewrite H; [reflexivity|].
    destruct (t (p ++ ".weight")%string); reflexivity. }
  rewrite Hm.
  destruct (t (p ++ ".gamma")%string); [|reflexivity].
  destruct (to_tensor target from_cpu t0); destruct (t (p ++ ".beta")%string);
    reflexivity.
Qed.

(** C3: LayerNorm lookup takes the [{prefix}.weight]/[{prefix}.bias] pair when
    both are present and otherwise the [{prefix}.gamma]/[{prefix}.beta] pair; a
    legacy-keyed bundle gives the same LayerNorm as a modern-keyed one with the
    same views; with neither pair complete the load aborts. *)
Theorem layer_norm_fallback (p : string) :
  (forall t w b,
     t (p ++ ".weight")%string = Some w -> t (p ++ ".bias")%string = Some b ->
     layer_norm_from_prefix target from_cpu p t = layer_norm_of target from_cpu w b) /\
  (forall t,
     (t (p ++ ".weight")%string = None \/ t (p ++ ".bias")%string = None) ->
     layer_norm_from_prefix target from_cpu p t =
       (g <- t (p ++ ".gamma")%string ;;
        be <- t (p ++ ".beta")%string ;;
        layer_norm_of target from_cpu g be)) /\
  (forall t_modern t_legacy w b,
     t_modern (p ++ ".weight")%string = Some w -> t_modern (p ++ ".bias")%string = Some b ->
     (t_legacy (p ++ ".weight")%string = None \/ t_legacy (p ++ ".bias")%string = None) ->
     t_legacy (p ++ ".gamma")%string = Some w -> t_legacy (p ++ ".beta")%string = Some b ->
     layer_norm_from_prefix target from_cpu p t_legacy =
     layer_norm_from_prefix target from_cpu p t_modern) /\
  (forall t,
     (t (p ++ ".weight")%string = None \/ t (p ++ ".bias")%string = None) ->
     (t (p ++ ".gamma")%string = None \/ t (p ++ ".beta")%string = None) ->
     layer_norm_from_prefix target from_cpu p t = None).
Proof.
  split; [exact (layer_norm_modern p)|].
  split; [exact (layer_norm_legacy p)|].
  split.
  - intros tm tl w b Hw Hb Hnot Hg Hbe.
    rewrite (layer_norm_modern p tm w b Hw Hb), (layer_norm_legacy p tl Hnot), Hg, Hbe.
    reflexivity.
  - intros t Hnot Hleg. rewrite (layer_norm_legacy p t Hnot).
    destruct Hleg as [H|H]; rewrite H; [reflexivity|].
    destruct (t (p ++ ".gamma")%string); reflexivity.
Qed.

(** C4: the classification head comes from [classifier.weight]/[classifier.bias]
    when both are present, otherwise from [cls.seq_relationship.weight]/
    [cls.seq_relationship.bias]; with neither pair complete the assembly
    aborts; an assembled model's head is the Linear of the selected pair. *)
Theorem classifier_head_fallback (t : SafeTensors) :
  (forall w b,
     t "classifier.weight"%string = Some w -> t "classifier.bias"%string = Some b ->
     classifier_head_views t = Some (w, b)) /\
  ((t "classifier.weight"%string = None \/ t "classifier.bias"%string = None) ->
   classifier_head_views t =
     (w <- t "cls.seq_relationship.weight"%string ;;
      b <- t "cls.seq_relationship.bias"%string ;;
      Some (w, b))) /\
  ((t "classifier.weight"%string = None \/ t "classifier.bias"%string = None) ->
   (t "cls.seq_relationship.weight"%string = None \/
    t "cls.seq_relationship.bias"%string = None) ->
   BertClassifier_from_tensors target from_cpu t = None) /\
  (forall m, BertClassifier_from_tensors target from_cpu t = Some m ->
   exists w b, classifier_head_views t = Some (w, b) /\
               linear_from target from_cpu w b = Some (classifier m)).
Proof.
  assert (Hleg : (t "classifier.weight"%string = None \/ t "classifier.bias"%string = None) ->
    classifier_head_views t =
      (w <- t "cls.seq_relationship.weight"%string ;;
       b <- t "cls.seq_relationship.bias"%string ;;
       Some (w, b))).
  { intros [H|H]; unfold classifier_head_views; rewrite H; [reflexivity|].
    destruct (t "classifier.weight"%string); reflexivity. }
  split; [intros w b Hw Hb; unfold classifier_head_views; rewrite Hw, Hb; reflexivity|].
  split; [exact Hleg|].
  split.
  - intros Hnot Hmiss.
    assert (Hv : classifier_head_views t = None).
    { rewrite (Hleg Hnot). destruct Hmiss as [H|H]; rewrite H; [reflexivity|].
      destruct (t "cls.seq_relationship.weight"%string); reflexivity. }
    unfold BertClassifier_from_tensors. rewrite Hv.
    destruct (BertPooler_from_tensors target from_cpu t); [|reflexivity].
    destruct (Bert_from_tensors target from_cpu t); reflexivity.
  - intros m H. unfold BertClassifier_from_tensors in H. option_cases.
    injection H as <-. destruct p as [vw vb].
    exists vw, vb. split; [reflexivity | exact E2].
Qed.

End AssemblyProofs.

Lemma sumbool_true {P Q : Prop} (d : {P} + {Q}) :
  (if d then true else false) = true -> P.
Proof. destruct d; [auto | discriminate]. Qed.

Lemma sumbool_false {P Q : Prop} (d : {P} + {Q}) :
  (if d then true else false) = false -> Q.
Proof. destruct d; [discriminate | auto]. Qed.

Lemma missing_tensor_fails_witness :
  let fc := fun (d : list f32) (_ : list nat) => Some d in
  let view := mkView F32 [1%nat] [x00; x00; x80; x3f] 0 in
  let slot := [layer_prefix 7 "output.LayerNorm.weight";
               layer_prefix 7 "output.LayerNorm.gamma"] in
  let t : SafeTensors :=
    fun name => if existsb (String.eqb name) slot then None else Some view in
  (In slot required_tensors /\ (forall name, In name slot -> t name = None)) /\
  BertClassifier_from_tensors Little fc t = None.
Proof.
  cbv zeta.
  assert (Hin : In [layer_prefix 7 "output.LayerNorm.weight";
                    layer_prefix 7 "output.LayerNorm.gamma"] required_tensors).
  { apply (sumbool_true (in_dec (list_eq_dec string_dec) _ _)).
    vm_compute. reflexivity. }
  assert (Habs : forall name,
    In name [layer_prefix 7 "output.LayerNorm.weight";
             layer_prefix 7 "output.LayerNorm.gamma"] ->
    (fun name => if existsb (String.eqb name)
                      [layer_prefix 7 "output.LayerNorm.weight";
                       layer_prefix 7 "output.LayerNorm.gamma"]
                 then None else Some (mkView F32 [1%nat] [x00; x00; x80; x3f] 0))
      name = None).
  { intros name [<-|[<-|[]]]; vm_compute; reflexivity. }
  split; [split; [exact Hin | exact Habs]|].
  exact (missing_tensor_fails _ Little _ _ _ Hin Habs).
Defined.

Lemma encoder_twelve_layers_witness :
  let fc := fun (d : list f32) (_ : list nat) => Some d in
  let t : SafeTensors := fun _ => Some (mkView F32 [1%nat] [x00; x00; x80; x3f] 0) in
  exists e, BertEncoder_from_tensors Little fc t = Some e /\
    (length (layers e) = 12%nat /\
     forall k l, nth_error (layers e) k = Some l ->
                 bert_layer_from_tensors Little fc k t = Some l).
Proof.
  cbv zeta.
  match goal with |- exists e, ?r = Some e /\ _ =>
    exists (match r with Some e => e | None => mkBertEncoder [] end) end.
  split; [vm_compute; reflexivity|].
  apply encoder_twelve_layers. vm_compute. reflexivity.
Defined.

Lemma layer_norm_fallback_witness :
  let fc := fun (d : list f32) (_ : list nat) => Some d in
  let p := "bert.embeddings.LayerNorm"%string in
  let vw := mkView F32 [1%nat] [x00; x00; x80; x3f] 0 in
  let vb := mkView F32 [1%nat] [x00; x00; x00; x00] 4 in
  let t_modern : SafeTensors := fun name =>
    if String.eqb name (p ++ ".weight") then Some vw
    else if String.eqb name (p ++ ".bias") then Some vb else None in
  let t_legacy : SafeTensors := fun name =>
    if String.eqb name (p ++ ".gamma") then Some vw
    else if String.eqb name (p ++ ".beta") then Some vb else None in
  layer_norm_from_prefix Little fc p t_modern = layer_norm_of Little fc vw vb /\
  layer_norm_from_prefix Little fc p t_legacy = layer_norm_from_prefix Little fc p t_modern /\
  layer_norm_from_prefix Little fc p (fun _ => None) = None.
Proof.
  intros fc p vw vb t_modern t_legacy.
  destruct (layer_norm_fallback _ Little fc p) as (H1 & _ & H3 & H4).
  split; [apply H1; reflexivity|].
  split; [apply (H3 t_modern t_legacy vw vb); try reflexivity; left; reflexivity|].
  apply H4; left; reflexivity.
Defined.

Lemma classifier_head_fallback_witness :
  let fc := fun (d : list f32) (_ : list nat) => Some d in
  let view := mkView F32 [1%nat] [x00; x00; x80; x3f] 0 in
  let t_modern : SafeTensors := fun name =>
    if String.eqb name "classifier.weight" || String.eqb name "classifier.bias"
    then Some view else None in
  let t_legacy : SafeTensors := fun name =>
    if String.eqb name "cls.seq_relationship.weight" ||
       String.eqb name "cls.seq_relationship.bias"
    then Some view else None in
  classifier_head_views t_modern = Some (view, view) /\
  classifier_head_views t_legacy = Some (view, view) /\
  BertClassifier_from_tensors Little fc (fun _ => None) = None.
Proof.
  intros fc view t_modern t_legacy.
  destruct (classifier_head_fallback _ Little fc t_modern) as (H1 & _ & _ & _).
  destruct (classifier_head_fallback _ Little fc t_legacy) as (_ & H2 & _ & _).
  destruct (classifier_head_fallback _ Little fc (fun _ => None)) as (_ & _ & H3 & _).
  split; [apply H1; reflexivity|].
  split; [rewrite H2 by (left; reflexivity); reflexivity|].
  apply H3; left; reflexivity.
Defined.

(** ** Labels and ranking *)

Example f32_one_gt_half :
  f32_partial_cmp (f32_from_bits 1065353216) (f32_from_bits 1056964608) = Some Gt.
Proof. reflexivity. Qed.

Example f32_neg_zero_eq :
  f32_partial_cmp (f32_from_bits 2147483648) (f32_from_bits 0) = Some Eq.
Proof. reflexivity. Qed.

Example f32_nan_unordered :
  f32_partial_cmp (f32_from_bits 2143289344) (f32_from_bits 0) = None.
Proof. reflexivity. Qed.

Example f32_inf_gt_max :
  f32_partial_cmp (f32_from_bits 2139095040) (f32_from_bits 2139095039) = Some Gt.
Proof. reflexivity. Qed.

Example rank_three :
  rank_outputs (Some [("0", "neg"); ("1", "pos"); ("2", "neu")]%string)
    [f32_from_bits 1036831949; f32_from_bits 1061997773; f32_from_bits 1045220557]
  = Some [("pos", f32_from_bits 1061997773); ("neu", f32_from_bits 1045220557);
          ("neg", f32_from_bits 1036831949)]%string.
Proof. reflexivity. Qed.

Lemma f32_partial_cmp_no_nan a b :
  is_nan a = false -> is_nan b = false ->
  f32_partial_cmp a b = Some (Z.compare (order_key a) (order_key b)).
Proof. intros Ha Hb. unfold f32_partial_cmp. rewrite Ha, Hb. reflexivity. Qed.

Lemma StronglySorted_snoc {A : Type} (R : A -> A -> Prop) (l : list A) (a : A) :
  StronglySorted R l -> (forall y, In y l -> R y a) -> StronglySorted R (l ++ [a]).
Proof.
  induction l as [|y l IH]; intros Hs Hr; cbn.
  - constructor; [constructor | constructor].
  - inversion Hs as [|? ? Hs' Hf]; subst. constructor.
    + apply IH; [exact Hs'|]. intros z Hz. apply Hr. right. exact Hz.
    + apply Forall_app. split; [exact Hf|]. constructor; [|constructor].
      apply Hr. left. reflexivity.
Qed.

Lemma StronglySorted_rev {A : Type} (R : A -> A -> Prop) (l : list A) :
  StronglySorted R l -> StronglySorted (fun a b => R b a) (rev l).
Proof.
  induction l as [|a l IH]; intros Hs; cbn; [constructor|].
  inversion Hs as [|? ? Hs' Hf]; subst.
  apply StronglySorted_snoc; [exact (IH Hs')|].
  intros y Hy. apply in_rev in Hy. exact (proj1 (Forall_forall _ _) Hf y Hy).
Qed.

Lemma StronglySorted_weaken {A : Type} (R R' : A -> A -> Prop) (l : list A) :
  StronglySorted R l ->
  (forall a b, In a l -> In b l -> R a b -> R' a b) -> StronglySorted R' l.
Proof.
  induction l as [|a l IH]; intros Hs Himp; [constructor|].
  inversion Hs as [|? ? Hs' Hf]; subst. constructor.
  - apply IH; [exact Hs'|]. intros x y Hx Hy. apply Himp; right; assumption.
  - apply Forall_forall. intros y Hy. apply Himp; [left; reflexivity | right; exact Hy |].
    exact (proj1 (Forall_forall _ _) Hf y Hy).
Qed.

Section Ranking.

Local Abbreviation ok := (fun e : string * f32 => is_nan (snd e) = false).
Local Abbreviation key e := (order_key (snd e)).
Local Abbreviation tie k := (fun e : string * f32 => Z.eqb (order_key (snd e)) k).

Lemma insert_tail_spec x :
  ok x -> forall acc, Forall ok acc ->
  exists r, insert_tail x acc = Some r /\
    Permutation (x :: acc) r /\
    (forall k, filter (tie k) r = if tie k x then x :: filter (tie k) acc
                                  else filter (tie k) acc) /\
    (StronglySorted (fun a b => (key a <= key b)%Z) acc ->
     StronglySorted (fun a b => (key a <= key b)%Z) r).
Proof.
  intros Hx. induction acc as [|h t IH]; intros Hacc.
  - exists [x]. split; [reflexivity|]. split; [reflexivity|]. split.
    + intros k. reflexivity.
    + intros _. constructor; constructor.
  - inversion Hacc as [|? ? Hh Ht]; subst.
    destruct (IH Ht) as (r' & Er' & Pr' & Fr' & Sr').
    cbn [insert_tail]. unfold is_less.
    rewrite (f32_partial_cmp_no_nan (snd h) (snd x) Hh Hx).
    destruct (Z.compare_spec (order_key (snd h)) (order_key (snd x))) as [Hc|Hc|Hc].
    + exists (x :: h :: t). split; [reflexivity|]. split; [reflexivity|]. split.
      * intros k. reflexivity.
      * intros Hs. inversion Hs as [|? ? Hs' Hf]; subst. constructor; [exact Hs|].
        constructor; [lia|].
        apply Forall_forall. intros y Hy.
        pose proof (proj1 (Forall_forall _ _) Hf y Hy) as Hy'. cbv beta in Hy'. lia.
    + rewrite Er'. exists (h :: r'). split; [reflexivity|]. split.
      * rewrite <- Pr'. apply perm_swap.
      * split.
        -- intros k. cbn [filter]. rewrite Fr'.
           destruct (Z.eqb (order_key (snd x)) k) eqn:Ek.
           ++ apply Z.eqb_eq in Ek. subst k.
              rewrite (proj2 (Z.eqb_neq _ _)) by lia. reflexivity.
           ++ reflexivity.
        -- intros Hs. inversion Hs as [|? ? Hs' Hf]; subst.
           constructor; [exact (Sr' Hs')|].
           apply Forall_forall. intros y Hy.
           apply (Permutation_in _ (Permutation_sym Pr')) in Hy.
           destruct Hy as [<-|Hy]; [lia|].
           exact (proj1 (Forall_forall _ _) Hf y Hy).
    + exists (x :: h :: t). split; [reflexivity|]. split; [reflexivity|]. split.
      * intros k. reflexivity.
      * intros Hs. inversion Hs as [|? ? Hs' Hf]; subst. constructor; [exact Hs|].
        constructor; [lia|].
        apply Forall_forall. intros y Hy.
        pose proof (proj1 (Forall_forall _ _) Hf y Hy) as Hy'. cbv beta in Hy'. lia.
Qed.
Lemma insertion_sort_spec :
  forall rest acc, Forall ok acc -> Forall ok rest ->
  StronglySorted (fun a b => (key a <= key b)%Z) acc ->
  exists out, insertion_sort_shift_left acc rest = Some out /\
    Permutation (rev acc ++ rest) out /\
    StronglySorted (fun a b => (key b <= key a)%Z) out /\
    (forall k, filter (tie k) out = filter (tie k) (rev acc ++ rest)).
Proof.
  induction rest as [|x rest IH]; intros acc Hacc Hrest Hs.
  - exists (rev acc). cbn [insertion_sort_shift_left]. rewrite app_nil_r.
    split; [reflexivity|]. split; [reflexivity|]. split; [|reflexivity].
    exact (StronglySorted_rev _ _ Hs).
  - inversion Hrest as [|? ? Hx Hrest']; subst.
    destruct (insert_tail_spec x Hx acc Hacc) as (r & Er & Pr & Fr & Sr).
    assert (Hr : Forall ok r).
    { apply Forall_forall. intros y Hy.
      apply (Permutation_in _ (Permutation_sym Pr)) in Hy.
      destruct Hy as [<-|Hy]; [exact Hx|exact (proj1 (Forall_forall _ _) Hacc y Hy)]. }
    destruct (IH r Hr Hrest' (Sr Hs)) as (out & Eo & Po & So & Fo).
    exists out. cbn [insertion_sort_shift_left]. rewrite Er.
    split; [exact Eo|]. split; [|split; [exact So|]].
    + eapply Permutation_trans; [|exact Po].
      replace (rev acc ++ x :: rest) with (rev (x :: acc) ++ rest)
        by (cbn; rewrite <- app_assoc; reflexivity).
      apply Permutation_app_tail.
      eapply Permutation_trans; [apply Permutation_sym, Permutation_rev|].
      eapply Permutation_trans; [exact Pr|apply Permutation_rev].
    + intros k. rewrite Fo, !filter_app, !filter_rev, Fr.
      cbn [filter]. destruct (Z.eqb (key x) k); cbn; [rewrite <- app_assoc|]; reflexivity.
Qed.

Lemma label_outputs_ok id2label probs :
  Forall (fun p => is_nan p = false) probs -> Forall ok (label_outputs id2label probs).
Proof.
  intros H. apply Forall_forall. intros e He.
  unfold label_outputs in He. apply in_map_iff in He as [[i p] [<- Hin]].
  apply in_combine_r in Hin. cbn. exact (proj1 (Forall_forall _ _) H p Hin).
Qed.

(** The ranking of NaN-free probabilities, stated on the order key. *)
Lemma rank_outputs_no_nan id2label probs :
  Forall (fun p => is_nan p = false) probs ->
  exists out, rank_outputs id2label probs = Some out /\
    Permutation (label_outputs id2label probs) out /\
    StronglySorted (fun a b => (key b <= key a)%Z) out /\
    (forall k, filter (tie k) out = filter (tie k) (label_outputs id2label probs)).
Proof.
  intros H. unfold rank_outputs, sort_by_prob_desc.
  exact (insertion_sort_spec _ [] (Forall_nil _) (label_outputs_ok id2label probs H)
           (SSorted_nil _)).
Qed.

End Ranking.

Lemma f32_eqb_no_nan a b :
  is_nan a = false -> is_nan b = false ->
  f32_eqb a b = Z.eqb (order_key a) (order_key b).
Proof.
  intros Ha Hb. unfold f32_eqb. rewrite (f32_partial_cmp_no_nan a b Ha Hb).
  destruct (Z.compare_spec (order_key a) (order_key b)) as [H|H|H].
  - rewrite (proj2 (Z.eqb_eq _ _) H). reflexivity.
  - rewrite (proj2 (Z.eqb_neq _ _)) by lia. reflexivity.
  - rewrite (proj2 (Z.eqb_neq _ _)) by lia. reflexivity.
Qed.

Lemma filter_f32_eqb_nan (p : f32) (l : list (string * f32)) :
  is_nan p = true -> filter (fun e => f32_eqb (snd e) p) l = [].
Proof.
  intros Hp. induction l as [|e l IH]; [reflexivity|].
  cbn [filter]. unfold f32_eqb at 1, f32_partial_cmp at 1. rewrite Hp, orb_true_r.
  exact IH.
Qed.

Lemma nth_error_combine_seq (l : list f32) :
  forall s i p, nth_error l i = Some p ->
  nth_error (combine (seq s (length l)) l) i = Some ((s + i)%nat, p).
Proof.
  induction l as [|x l IH]; intros s i p H; [destruct i; discriminate|].
  destruct i as [|i]; cbn in H |- *.
  - injection H as <-. rewrite Nat.add_0_r. reflexivity.
  - rewrite (IH (S s) i p H). rewrite Nat.add_succ_r. reflexivity.
Qed.

(** C6: for NaN-free probabilities the driver outputs one [(label, p)] pair
    per class ([label_outputs] up to permutation), in descending order of
    probability; pairs with equal probabilities keep their class order, as
    the stable sort leaves them. *)
Theorem ranking_sorted_desc (id2label : option HashMap) (probs : list f32) :
  Forall (fun p => is_nan p = false) probs ->
  exists out, rank_outputs id2label probs = Some out /\
    Permutation (label_outputs id2label probs) out /\
    StronglySorted (fun a b => f32_le (snd b) (snd a)) out /\
    (forall p, filter (fun e => f32_eqb (snd e) p) out =
               filter (fun e => f32_eqb (snd e) p) (label_outputs id2label probs)).
Proof.
  intros H. destruct (rank_outputs_no_nan id2label probs H) as (out & E & P & S & F).
  pose proof (label_outputs_ok id2label probs H) as Hin.
  assert (Hout : Forall (fun e => is_nan (snd e) = false) out).
  { apply Forall_forall. intros e He.
    apply (Permutation_in _ (Permutation_sym P)) in He.
    exact (proj1 (Forall_forall _ _) Hin e He). }
  exists out. split; [exact E|]. split; [exact P|]. split.
  - apply (StronglySorted_weaken _ _ _ S). intros a b Ha Hb Hab.
    unfold f32_le.
    rewrite (f32_partial_cmp_no_nan (snd b) (snd a)
               (proj1 (Forall_forall _ _) Hout b Hb) (proj1 (Forall_forall _ _) Hout a Ha)).
    destruct (Z.compare_spec (order_key (snd b)) (order_key (snd a)));
      [right; reflexivity | left; reflexivity | lia].
  - intros p. destruct (is_nan p) eqn:Hp.
    + rewrite !filter_f32_eqb_nan by exact Hp. reflexivity.
    + rewrite (filter_ext_in _ (fun e => Z.eqb (order_key (snd e)) (order_key p)) out),
        (filter_ext_in _ (fun e => Z.eqb (order_key (snd e)) (order_key p))
           (label_outputs id2label probs)).
      * apply F.
      * intros e He. apply f32_eqb_no_nan; [|exact Hp].
        exact (proj1 (Forall_forall _ _) Hin e He).
      * intros e He. apply f32_eqb_no_nan; [|exact Hp].
        exact (proj1 (Forall_forall _ _) Hout e He).
Qed.

Lemma ranking_sorted_desc_witness :
  let probs := [f32_from_bits 1036831949; f32_from_bits 1061997773;
                f32_from_bits 1045220557; f32_from_bits 1061997773] in
  Forall (fun p => is_nan p = false) probs /\
  exists out, rank_outputs None probs = Some out /\
    Permutation (label_outputs None probs) out /\
    StronglySorted (fun a b => f32_le (snd b) (snd a)) out /\
    (forall p, filter (fun e => f32_eqb (snd e) p) out =
               filter (fun e => f32_eqb (snd e) p) (label_outputs None probs)).
Proof.
  intros probs.
  assert (H : Forall (fun p => is_nan p = false) probs) by repeat constructor.
  split; [exact H | exact (ranking_sorted_desc None probs H)].
Defined.

(** C10: [partial_cmp] is defined on every pair of non-NaN floats, so the
    sort of NaN-free probabilities succeeds; a NaN probability makes the
    comparator's [unwrap] abort the ranking. *)
Theorem ranking_nan_aborts :
  (forall a b, is_nan a = false -> is_nan b = false -> f32_partial_cmp a b <> None) /\
  (forall id2label probs, Forall (fun p => is_nan p = false) probs ->
     rank_outputs id2label probs <> None) /\
  (exists probs, existsb is_nan probs = true /\ rank_outputs None probs = None).
Proof.
  split; [intros a b Ha Hb; rewrite (f32_partial_cmp_no_nan a b Ha Hb); discriminate|].
  split.
  - intros id2label probs H.
    destruct (rank_outputs_no_nan id2label probs H) as (out & E & _). rewrite E.
    discriminate.
  - exists [f32_from_bits 2143289344; f32_from_bits 1056964608].
    split; reflexivity.
Qed.

Lemma ranking_nan_aborts_witness :
  f32_partial_cmp (f32_from_bits 1065353216) (f32_from_bits 0) <> None /\
  rank_outputs None [f32_from_bits 1065353216; f32_from_bits 0] <> None.
Proof.
  destruct ranking_nan_aborts as (H1 & H2 & _).
  split; [apply H1; reflexivity | apply H2; repeat constructor].
Defined.

(** C7 as stated fails: a mapping present in [Config] does not give every
    class its label; a class index missing from it gets ["LABEL_{i}"]. *)
Lemma label_of_partial_mapping_counterexample :
  ~ (forall (m : HashMap) (i : nat), exists k, In (k, label_of (Some m) i) m).
Proof.
  intros H. destruct (H [("0", "neg")%string] 1%nat) as [k Hk].
  cbn in Hk. destruct Hk as [Hk|[]]. injection Hk as _ Hl. discriminate Hl.
Qed.

(** C7 (amended): the label of class [i] is [id2label[format!("{}", i)]] when
    [Config] has a mapping with that key, and ["LABEL_{i}"] when there is no
    mapping or the mapping lacks the key; the [i]-th output pair carries it
    with the [i]-th probability. *)
Theorem label_resolution (id2label : option HashMap) (probs : list f32) (i : nat) :
  (forall m l, id2label = Some m -> hashmap_get m (usize_to_string i) = Some l ->
     label_of id2label i = l) /\
  ((id2label = None \/
    exists m, id2label = Some m /\ hashmap_get m (usize_to_string i) = None) ->
   label_of id2label i = ("LABEL_" ++ usize_to_string i)%string) /\
  (forall p, nth_error probs i = Some p ->
     nth_error (label_outputs id2label probs) i = Some (label_of id2label i, p)).
Proof.
  split; [|split].
  - intros m l -> Hl. unfold label_of, get_label. rewrite Hl. reflexivity.
  - intros [->|(m & -> & Hm)]; unfold label_of, get_label; [reflexivity|].
    rewrite Hm. reflexivity.
  - intros p Hp. unfold label_outputs. rewrite nth_error_map.
    rewrite (nth_error_combine_seq probs 0 i p Hp). reflexivity.
Qed.

Lemma label_resolution_witness :
  let m := [("0", "neg"); ("1", "pos")]%string in
  label_of (Some m) 1 = "pos"%string /\
  label_of (Some m) 2 = "LABEL_2"%string /\
  label_of None 0 = "LABEL_0"%string /\
  nth_error (label_outputs (Some m) [f32_from_bits 0; f32_from_bits 1065353216]) 1
    = Some (label_of (Some m) 1, f32_from_bits 1065353216).
Proof.
  intros m.
  destruct (label_resolution (Some m) [f32_from_bits 0; f32_from_bits 1065353216] 1)
    as (H1 & _ & H3).
  destruct (label_resolution (Some m) [] 2) as (_ & H2 & _).
  destruct (label_resolution None [] 0) as (_ & H0 & _).
  split; [apply (H1 m); reflexivity|].
  split; [apply H2; right; exists m; split; reflexivity|].
  split; [apply H0; left; reflexivity|].
  apply H3. reflexivity.
Defined.

(** ** Further properties of the loader *)

Section LoaderExtras.

Variable Tensor : Type.
Variable target : Endian.
Variable from_cpu : list f32 -> list nat -> option Tensor.

Lemma loaded_app t a b :
  loaded target from_cpu t (a ++ b) <->
  loaded target from_cpu t a /\ loaded target from_cpu t b.
Proof. unfold loaded. apply Forall_app. Qed.

Lemma loaded_single t name v x :
  t name = Some v -> to_tensor target from_cpu v = Some x ->
  loaded target from_cpu t [[name]].
Proof.
  intros Hv Hx. apply Forall_cons; [|apply Forall_nil].
  exists name, v, x. split; [left; reflexivity|]. split; assumption.
Qed.

Lemma linear_from_loaded w b l :
  linear_from target from_cpu w b = Some l ->
  exists x y, to_tensor target from_cpu w = Some x /\ to_tensor target from_cpu b = Some y.
Proof.
  unfold linear_from. intros H. option_cases. exists t, t0. split; reflexivity.
Qed.

Lemma linear_from_prefix_loaded p t l :
  linear_from_prefix target from_cpu p t = Some l ->
  loaded target from_cpu t (linear_keys p).
Proof.
  unfold linear_from_prefix. intros H. option_cases.
  destruct (linear_from_loaded _ _ _ H) as (x & y & Hx & Hy).
  unfold linear_keys. change [[?a]; [?b]] with ([[a]] ++ [[b]]).
  apply loaded_app. split; eapply loaded_single; eassumption.
Qed.

Lemma layer_norm_from_prefix_loaded p t l :
  layer_norm_from_prefix target from_cpu p t = Some l ->
  loaded target from_cpu t (layer_norm_keys p).
Proof.
  unfold layer_norm_from_prefix. intros H. cbv zeta in H.
  unfold layer_norm_keys, loaded.
  destruct (t (p ++ ".weight")%string) eqn:Ew, (t (p ++ ".bias")%string) eqn:Eb;
    option_cases;
    (apply Forall_cons; [|apply Forall_cons; [|apply Forall_nil]]);
    first
      [ split; eexists; eexists; split; [left; reflexivity | split; eassumption]
      | idtac ].
  all: first
      [ eexists; eexists; eexists; split; [left; reflexivity | split; eassumption]
      | eexists; eexists; eexists; split; [right; left; reflexivity | split; eassumption] ].
Qed.

Ltac loaded_step :=
  match goal with
  | H : linear_from_prefix _ _ ?p _ = Some _ |- loaded _ _ _ (linear_keys ?p) =>
      exact (linear_from_prefix_loaded _ _ _ H)
  | H : layer_norm_from_prefix _ _ ?p _ = Some _ |- loaded _ _ _ (layer_norm_keys ?p) =>
      exact (layer_norm_from_prefix_loaded _ _ _ H)
  end.

Lemma bert_layer_loaded i t l :
  bert_layer_from_tensors target from_cpu i t = Some l ->
  loaded target from_cpu t (layer_keys i).
Proof.
  unfold bert_layer_from_tensors, bert_attention_from_tensors, bert_mlp_from_tensors.
  intros H. option_cases.
  unfold layer_keys. rewrite !loaded_app.
  repeat split; loaded_step.
Qed.

Lemma encoder_loaded t e :
  BertEncoder_from_tensors target from_cpu t = Some e ->
  loaded target from_cpu t (flat_map layer_keys (seq 0 12)).
Proof.
  unfold BertEncoder_from_tensors. intros H. option_cases.
  unfold loaded. apply Forall_forall. intros slot Hin.
  apply in_flat_map in Hin as [i [Hi Hslot]].
  destruct (map_option_in _ _ _ _ E Hi) as [layer Hl].
  apply bert_layer_loaded in Hl.
  exact (proj1 (Forall_forall _ _) Hl slot Hslot).
Qed.

Lemma classifier_head_loaded t w b l :
  classifier_head_views t = Some (w, b) ->
  linear_from target from_cpu w b = Some l ->
  loaded target from_cpu t
    [["classifier.weight"; "cls.seq_relationship.weight"];
     ["classifier.bias"; "cls.seq_relationship.bias"]]%string.
Proof.
  intros Hv Hl. destruct (linear_from_loaded _ _ _ Hl) as (x & y & Hx & Hy).
  unfold classifier_head_views in Hv. unfold loaded.
  apply Forall_cons; [|apply Forall_cons; [|apply Forall_nil]].
  all: destruct (t "classifier.weight"%string) eqn:Ew,
         (t "classifier.bias"%string) eqn:Eb;
       option_cases; injection Hv as <- <-.
  all: first
    [ eexists; eexists; eexists; split; [left; reflexivity | split; eassumption]
    | eexists; eexists; eexists; split; [right; left; reflexivity | split; eassumption] ].
Qed.

(** A successful assembly found every required tensor under one of its names
    and converted the view found there. *)
Lemma classifier_loaded t m :
  BertClassifier_from_tensors target from_cpu t = Some m ->
  loaded target from_cpu t required_tensors.
Proof.
  unfold BertClassifier_from_tensors, BertPooler_from_tensors, Bert_from_tensors,
    BertEmbeddings_from_tensors.
  intros H. option_cases.
  unfold required_tensors. rewrite !loaded_app.
  repeat split.
  - match goal with
    | Hw : t "bert.pooler.dense.weight"%string = Some ?w,
      Hb : t "bert.pooler.dense.bias"%string = Some ?b,
      H : linear_from _ _ ?w ?b = Some _ |- _ =>
        destruct (linear_from_loaded _ _ _ H) as (x & y & Hx & Hy)
    end.
    unfold linear_keys. change [[?a]; [?b]] with ([[a]] ++ [[b]]).
    rewrite loaded_app. split; eapply loaded_single; eassumption.
  - unfold embedding_from in *. option_cases.
    change [[?a]; [?b]; [?c]] with ([[a]] ++ [[b]] ++ [[c]]).
    rewrite !loaded_app. repeat split; eapply loaded_single; eassumption.
  - loaded_step.
  - eapply encoder_loaded; eassumption.
  - destruct p as [vw vb]. eapply classifier_head_loaded; eassumption.
Qed.

(** A required tensor that has a single name (an embedding table, a dense
    layer's weight or bias, the pooler) and whose view does not convert makes
    the whole assembly abort. *)
Theorem required_tensor_unconvertible_fails t name v :
  In [name] required_tensors -> t name = Some v ->
  to_tensor target from_cpu v = None ->
  BertClassifier_from_tensors target from_cpu t = None.
Proof.
  intros Hin Hv Hx.
  destruct (BertClassifier_from_tensors target from_cpu t) as [m|] eqn:E; [|reflexivity].
  exfalso. pose proof (classifier_loaded t m E) as Hl.
  unfold loaded in Hl. rewrite Forall_forall in Hl.
  destruct (Hl [name] Hin) as (n & v' & x & [<-|[]] & Hv' & Hx').
  congruence.
Qed.

(** [to_tensor] aborts on a view that is not [F32], and on a misaligned view
    whose length is not a multiple of 4, whatever the backend. *)
Lemma to_tensor_bad_view v :
  dtype v <> F32 \/
  (Nat.modulo (addr v) 4 <> 0 /\ Nat.modulo (length (data v)) 4 <> 0) ->
  to_tensor target from_cpu v = None.
Proof.
  intros H. unfold to_tensor, to_f32.
  destruct H as [H|[Ha Hl]].
  - destruct (Dtype_eqb (dtype v) F32) eqn:E; [|reflexivity].
    apply Dtype_eqb_spec in E. contradiction.
  - destruct (Dtype_eqb (dtype v) F32); [|reflexivity].
    unfold f32_conversion. rewrite (proj2 (Nat.eqb_neq _ _) Ha).
    rewrite copy_loop_partial by exact Hl. reflexivity.
Qed.

(** Loading a checkpoint in which a single-name required tensor is stored with
    a dtype other than [F32], or misaligned with a length not a multiple of 4,
    aborts. *)
Theorem required_tensor_bad_view_fails t name v :
  In [name] required_tensors -> t name = Some v ->
  (dtype v <> F32 \/
   (Nat.modulo (addr v) 4 <> 0 /\ Nat.modulo (length (data v)) 4 <> 0)) ->
  BertClassifier_from_tensors target from_cpu t = None.
Proof.
  intros Hin Hv Hbad.
  destruct (BertClassifier_from_tensors target from_cpu t) as [m|] eqn:E; [|reflexivity].
  exfalso. pose proof (classifier_loaded t m E) as Hl.
  unfold loaded in Hl. rewrite Forall_forall in Hl.
  destruct (Hl [name] Hin) as (n & v' & x & [<-|[]] & Hv' & Hx').
  rewrite Hv in Hv'. injection Hv' as <-.
  rewrite (to_tensor_bad_view v Hbad) in Hx'. discriminate.
Qed.


(** *** Only the views found under the required names matter *)

Lemma same_views_slots t1 t2 a b :
  same_views target from_cpu t1 t2 (concat b) ->
  (forall slot, In slot a -> In slot b) ->
  same_views target from_cpu t1 t2 (concat a).
Proof.
  intros H Hab name Hn. apply H.
  apply in_concat in Hn as [slot [Hs Hn]].
  apply in_concat. exists slot. split; [apply Hab, Hs | exact Hn].
Qed.

(** Look a name up in both bundles: both miss it, or both hold views with the
    same conversion. *)
Ltac same_at H t1 t2 n :=
  let Hn := fresh "Hn" in
  assert (Hn := H n ltac:(in_names));
  destruct (t1 n), (t2 n); cbn in Hn; try contradiction; try reflexivity.

Ltac same_finish :=
  cbn [fst snd];
  repeat match goal with
  | Hx : to_tensor _ _ _ = to_tensor _ _ _ |- _ => rewrite Hx; clear Hx
  end; reflexivity.

Lemma linear_from_prefix_same p t1 t2 :
  same_views target from_cpu t1 t2 (concat (linear_keys p)) ->
  linear_from_prefix target from_cpu p t1 = linear_from_prefix target from_cpu p t2.
Proof.
  intros H. unfold linear_from_prefix, linear_from.
  same_at H t1 t2 (p ++ ".weight")%string.
  all: same_at H t1 t2 (p ++ ".bias")%string.
  all: same_finish.
Qed.

Lemma layer_norm_from_prefix_same p t1 t2 :
  same_views target from_cpu t1 t2 (concat (layer_norm_keys p)) ->
  layer_norm_from_prefix target from_cpu p t1 = layer_norm_from_prefix target from_cpu p t2.
Proof.
  intros H. unfold layer_norm_from_prefix. cbv zeta.
  same_at H t1 t2 (p ++ ".weight")%string.
  all: same_at H t1 t2 (p ++ ".bias")%string.
  all: same_at H t1 t2 (p ++ ".gamma")%string.
  all: same_at H t1 t2 (p ++ ".beta")%string.
  all: same_finish.
Qed.

Lemma bert_layer_same i t1 t2 :
  same_views target from_cpu t1 t2 (concat (layer_keys i)) ->
  bert_layer_from_tensors target from_cpu i t1 = bert_layer_from_tensors target from_cpu i t2.
Proof.
  intros H.
  unfold bert_layer_from_tensors, bert_attention_from_tensors, bert_mlp_from_tensors.
  rewrite (linear_from_prefix_same (layer_prefix i "attention.self.query") t1 t2),
    (linear_from_prefix_same (layer_prefix i "attention.self.key") t1 t2),
    (linear_from_prefix_same (layer_prefix i "attention.self.value") t1 t2),
    (linear_from_prefix_same (layer_prefix i "attention.output.dense") t1 t2),
    (layer_norm_from_prefix_same (layer_prefix i "attention.output.LayerNorm") t1 t2),
    (linear_from_prefix_same (layer_prefix i "intermediate.dense") t1 t2),
    (linear_from_prefix_same (layer_prefix i "output.dense") t1 t2),
    (layer_norm_from_prefix_same (layer_prefix i "output.LayerNorm") t1 t2);
    [reflexivity|..];
    apply (same_views_slots _ _ _ _ H); intros slot Hs; unfold layer_keys;
    rewrite !in_app_iff; tauto.
Qed.

Lemma map_option_ext {A B : Type} (f g : A -> option B) l :
  (forall x, In x l -> f x = g x) -> map_option f l = map_option g l.
Proof.
  induction l as [|x l IH]; intros H; [reflexivity|].
  cbn [map_option]. rewrite (H x (or_introl eq_refl)).
  rewrite IH by (intros y Hy; apply H; right; exact Hy). reflexivity.
Qed.

Lemma encoder_same t1 t2 :
  same_views target from_cpu t1 t2 (concat (flat_map layer_keys (seq 0 12))) ->
  BertEncoder_from_tensors target from_cpu t1 = BertEncoder_from_tensors target from_cpu t2.
Proof.
  intros H. unfold BertEncoder_from_tensors.
  rewrite (map_option_ext (fun i => bert_layer_from_tensors target from_cpu i t1)
             (fun i => bert_layer_from_tensors target from_cpu i t2)); [reflexivity|].
  intros i Hi. apply bert_layer_same.
  apply (same_views_slots _ _ _ _ H). intros slot Hs.
  apply in_flat_map. exists i. split; assumption.
Qed.

Lemma embeddings_same t1 t2 :
  same_views target from_cpu t1 t2 (concat embeddings_slots) ->
  BertEmbeddings_from_tensors target from_cpu t1 = BertEmbeddings_from_tensors target from_cpu t2.
Proof.
  intros H. unfold BertEmbeddings_from_tensors.
  rewrite (layer_norm_from_prefix_same "bert.embeddings.LayerNorm" t1 t2)
    by (apply (same_views_slots _ _ _ _ H); intros slot Hs; unfold embeddings_slots;
        rewrite in_app_iff; tauto).
  unfold embedding_from.
  same_at H t1 t2 "bert.embeddings.word_embeddings.weight"%string.
  all: same_at H t1 t2 "bert.embeddings.position_embeddings.weight"%string.
  all: same_at H t1 t2 "bert.embeddings.token_type_embeddings.weight"%string.
  all: same_finish.
Qed.

Lemma pooler_same t1 t2 :
  same_views target from_cpu t1 t2 (concat (linear_keys "bert.pooler.dense")) ->
  BertPooler_from_tensors target from_cpu t1 = BertPooler_from_tensors target from_cpu t2.
Proof.
  intros H. unfold BertPooler_from_tensors, linear_from.
  same_at H t1 t2 "bert.pooler.dense.weight"%string.
  all: same_at H t1 t2 "bert.pooler.dense.bias"%string.
  all: same_finish.
Qed.

Lemma classifier_same t1 t2 :
  same_views target from_cpu t1 t2 (concat required_tensors) ->
  BertClassifier_from_tensors target from_cpu t1 = BertClassifier_from_tensors target from_cpu t2.
Proof.
  intros H. unfold BertClassifier_from_tensors, Bert_from_tensors.
  rewrite (pooler_same t1 t2), (embeddings_same t1 t2), (encoder_same t1 t2);
    [|apply (same_views_slots _ _ _ _ H); intros slot Hs;
      unfold required_tensors, embeddings_slots in *;
      rewrite ?in_app_iff in *; tauto ..].
  unfold classifier_head_views, linear_from.
  same_at H t1 t2 "classifier.weight"%string.
  all: same_at H t1 t2 "classifier.bias"%string.
  all: same_at H t1 t2 "cls.seq_relationship.weight"%string.
  all: same_at H t1 t2 "cls.seq_relationship.bias"%string.
  all: same_finish.
Qed.


(** Two bundles that hold the same entries under every required name build the
    same classifier: entries under any other name are never read. *)
Theorem assembly_reads_only_required t1 t2 :
  agree t1 t2 (concat required_tensors) ->
  BertClassifier_from_tensors target from_cpu t1 = BertClassifier_from_tensors target from_cpu t2.
Proof.
  intros H. apply classifier_same. intros name Hn.
  rewrite (H name Hn). destruct (t2 name); [reflexivity | exact I].
Qed.

End LoaderExtras.

Section LittleEndian.

Variable Tensor : Type.
Variable from_cpu : list f32 -> list nat -> option Tensor.

(** On a little-endian target the conversion of an [F32] view whose length is
    a multiple of 4 yields the little-endian floats of its bytes on both the
    aligned and the misaligned path. *)
Lemma f32_conversion_le bytes a :
  Nat.modulo (length bytes) 4 = 0 ->
  exists c, f32_conversion Little bytes a = Some c /\ cow_deref c = le_decode_spec bytes.
Proof.
  intros Hm. unfold f32_conversion.
  destruct (Nat.eqb (Nat.modulo a 4) 0).
  - eexists. split; reflexivity.
  - rewrite copy_loop_whole by exact Hm. eexists. split; reflexivity.
Qed.

Lemma to_tensor_relocate v a :
  (dtype v = F32 -> Nat.modulo (length (data v)) 4 = 0) ->
  to_tensor Little from_cpu (mkView (dtype v) (shape v) (data v) a) =
  to_tensor Little from_cpu v.
Proof.
  intros H. unfold to_tensor, to_f32. cbn [dtype data addr shape].
  destruct (Dtype_eqb (dtype v) F32) eqn:E; [|reflexivity].
  apply Dtype_eqb_spec in E.
  destruct (f32_conversion_le (data v) a (H E)) as (c1 & E1 & D1).
  destruct (f32_conversion_le (data v) (addr v) (H E)) as (c2 & E2 & D2).
  rewrite E1, E2, D1, D2. reflexivity.
Qed.

(** On a little-endian target the assembled classifier does not depend on
    where the [F32] views lie in memory, as long as each one's byte length is a
    multiple of 4: moving every view to another address (aligned or not)
    builds the same model, or fails the same way. *)
Theorem assembly_address_independent t (reloc : string -> nat) :
  (forall name v, t name = Some v -> dtype v = F32 -> Nat.modulo (length (data v)) 4 = 0) ->
  BertClassifier_from_tensors Little from_cpu (relocate t reloc) =
  BertClassifier_from_tensors Little from_cpu t.
Proof.
  intros H. apply classifier_same. intros name _. unfold relocate.
  destruct (t name) as [v|] eqn:E; cbn; [|exact I].
  apply to_tensor_relocate. exact (H name v E).
Qed.

End LittleEndian.

Section AssembledModel.

Variable Tensor : Type.
Variable target : Endian.
Variable from_cpu : list f32 -> list nat -> option Tensor.

Lemma layer_norm_from_prefix_epsilon p t l :
  layer_norm_from_prefix target from_cpu p t = Some l -> ln_epsilon l = layer_norm_epsilon.
Proof.
  unfold layer_norm_from_prefix. cbv zeta. intros H.
  destruct (t (p ++ ".weight")%string), (t (p ++ ".bias")%string);
    option_cases; injection H as <-; reflexivity.
Qed.

(** Every LayerNorm of an assembled classifier (the embeddings' one and the
    two of each encoder layer) carries the epsilon [1e-5] fixed by the loader,
    whichever key pair its weights came from. *)
Theorem assembled_layer_norm_epsilon t m :
  BertClassifier_from_tensors target from_cpu t = Some m ->
  ln_epsilon (emb_layer_norm (embeddings (bert m))) = layer_norm_epsilon /\
  forall l, In l (layers (encoder (bert m))) ->
    ln_epsilon (attn_output_ln (attention l)) = layer_norm_epsilon /\
    ln_epsilon (mlp_output_ln (mlp l)) = layer_norm_epsilon.
Proof.
  unfold BertClassifier_from_tensors, Bert_from_tensors, BertEmbeddings_from_tensors,
    BertEncoder_from_tensors.
  intros H. option_cases.
  repeat match goal with Hs : Some _ = Some _ |- _ => injection Hs as Hs; subst end.
  cbn [bert embeddings emb_layer_norm encoder layers].
  split; [eapply layer_norm_from_prefix_epsilon; eassumption|].
  intros lay Hl.
  apply In_nth_error in Hl as [k Hk].
  match goal with
  | Em : map_option _ _ = Some _ |- _ =>
      destruct (proj2 (map_option_spec _ _ _ Em) k lay Hk) as [i [_ Hi]]
  end.
  unfold bert_layer_from_tensors, bert_attention_from_tensors, bert_mlp_from_tensors in Hi.
  option_cases.
  repeat match goal with Hs : Some _ = Some _ |- _ => injection Hs as Hs; subst end.
  cbn [attention attn_output_ln mlp mlp_output_ln].
  split; eapply layer_norm_from_prefix_epsilon; eassumption.
Qed.

(** *** A bundle with every tensor under its modern name assembles *)

Lemma loaded_first_in t slots n rest :
  loaded target from_cpu t (map (firstn 1) slots) -> In (n :: rest) slots ->
  exists v x, t n = Some v /\ to_tensor target from_cpu v = Some x.
Proof.
  intros H Hin. unfold loaded in H. rewrite Forall_forall in H.
  destruct (H [n] (in_map (firstn 1) _ _ Hin)) as (n' & v & x & [<-|[]] & Hv & Hx).
  exists v, x. split; assumption.
Qed.

Lemma loaded_first_sub t a b :
  loaded target from_cpu t (map (firstn 1) b) -> (forall s, In s a -> In s b) ->
  loaded target from_cpu t (map (firstn 1) a).
Proof.
  unfold loaded. rewrite !Forall_forall. intros H Hab s Hs.
  apply in_map_iff in Hs as [s' [<- Hs']]. apply H, in_map, Hab, Hs'.
Qed.

Ltac first_at H n rest :=
  let v := fresh "v" in let x := fresh "x" in
  let Hv := fresh "Hv" in let Hx := fresh "Hx" in
  destruct (loaded_first_in _ _ n rest H ltac:(in_names)) as (v & x & Hv & Hx);
  rewrite Hv.

Ltac first_finish :=
  repeat match goal with
  | Hx : to_tensor _ _ _ = Some _ |- _ => rewrite Hx; clear Hx
  end; eexists; reflexivity.

Lemma linear_from_prefix_modern p t :
  loaded target from_cpu t (map (firstn 1) (linear_keys p)) ->
  exists l, linear_from_prefix target from_cpu p t = Some l.
Proof.
  intros H. unfold linear_from_prefix, linear_from.
  first_at H (p ++ ".weight")%string (@nil string).
  first_at H (p ++ ".bias")%string (@nil string).
  first_finish.
Qed.

Lemma layer_norm_from_prefix_modern p t :
  loaded target from_cpu t (map (firstn 1) (layer_norm_keys p)) ->
  exists l, layer_norm_from_prefix target from_cpu p t = Some l.
Proof.
  intros H. unfold layer_norm_from_prefix. cbv zeta.
  first_at H (p ++ ".weight")%string [(p ++ ".gamma")%string].
  first_at H (p ++ ".bias")%string [(p ++ ".beta")%string].
  first_finish.
Qed.

Ltac modern_step H :=
  match goal with
  | |- context [linear_from_prefix _ _ ?p ?t] =>
      let l := fresh "l" in let E := fresh "E" in
      destruct (linear_from_prefix_modern p t) as [l E];
      [ apply (loaded_first_sub _ _ _ H); intros ? ?; unfold layer_keys;
        rewrite ?in_app_iff; tauto
      | rewrite E ]
  | |- context [layer_norm_from_prefix _ _ ?p ?t] =>
      let l := fresh "l" in let E := fresh "E" in
      destruct (layer_norm_from_prefix_modern p t) as [l E];
      [ apply (loaded_first_sub _ _ _ H); intros ? ?; unfold layer_keys;
        rewrite ?in_app_iff; tauto
      | rewrite E ]
  end.

Lemma bert_layer_modern i t :
  loaded target from_cpu t (map (firstn 1) (layer_keys i)) ->
  exists l, bert_layer_from_tensors target from_cpu i t = Some l.
Proof.
  intros H.
  unfold bert_layer_from_tensors, bert_attention_from_tensors, bert_mlp_from_tensors.
  repeat modern_step H. eexists. reflexivity.
Qed.

Lemma map_option_total {A B : Type} (f : A -> option B) l :
  (forall x, In x l -> exists y, f x = Some y) -> exists r, map_option f l = Some r.
Proof.
  induction l as [|x l IH]; intros H; [exists []; reflexivity|].
  destruct (H x (or_introl eq_refl)) as [y Ey].
  destruct IH as [r Er]; [intros z Hz; apply H; right; exact Hz|].
  exists (y :: r). cbn [map_option]. rewrite Ey, Er. reflexivity.
Qed.

Lemma encoder_modern t :
  loaded target from_cpu t (map (firstn 1) (flat_map layer_keys (seq 0 12))) ->
  exists e, BertEncoder_from_tensors target from_cpu t = Some e.
Proof.
  intros H. unfold BertEncoder_from_tensors.
  destruct (map_option_total (fun i => bert_layer_from_tensors target from_cpu i t) (seq 0 12))
    as [r Er].
  - intros i Hi. apply bert_layer_modern.
    apply (loaded_first_sub _ _ _ H). intros s Hs. apply in_flat_map. exists i. auto.
  - rewrite Er. eexists. reflexivity.
Qed.

(** A bundle holding, under the modern name of every required tensor
    ([{prefix}.weight], [{prefix}.bias], [classifier.*]), a view that
    [to_tensor] converts, assembles into a classifier. *)
Theorem assembly_succeeds_modern t :
  loaded target from_cpu t (map (firstn 1) required_tensors) ->
  exists m, BertClassifier_from_tensors target from_cpu t = Some m.
Proof.
  intros H.
  unfold BertClassifier_from_tensors, BertPooler_from_tensors, Bert_from_tensors,
    BertEmbeddings_from_tensors, classifier_head_views, embedding_from, linear_from.
  destruct (layer_norm_from_prefix_modern "bert.embeddings.LayerNorm" t) as [ln Eln].
  { apply (loaded_first_sub _ _ _ H). intros s Hs. unfold required_tensors.
    rewrite !in_app_iff. tauto. }
  destruct (encoder_modern t) as [e Ee].
  { apply (loaded_first_sub _ _ _ H). intros s Hs. unfold required_tensors.
    rewrite !in_app_iff. tauto. }
  rewrite Eln, Ee.
  first_at H "bert.pooler.dense.weight"%string (@nil string).
  first_at H "bert.pooler.dense.bias"%string (@nil string).
  first_at H "bert.embeddings.word_embeddings.weight"%string (@nil string).
  first_at H "bert.embeddings.position_embeddings.weight"%string (@nil string).
  first_at H "bert.embeddings.token_type_embeddings.weight"%string (@nil string).
  first_at H "classifier.weight"%string ["cls.seq_relationship.weight"%string].
  first_at H "classifier.bias"%string ["cls.seq_relationship.bias"%string].
  cbn [fst snd]. first_finish.
Qed.

End AssembledModel.

(** ** Further properties of the ranking *)

Lemma label_outputs_nth id2label probs i :
  nth_error (label_outputs id2label probs) i =
  option_map (fun p => (label_of id2label i, p)) (nth_error probs i).
Proof.
  unfold label_outputs. rewrite nth_error_map.
  destruct (nth_error probs i) as [p|] eqn:E.
  - rewrite (nth_error_combine_seq probs 0 i p E). reflexivity.
  - rewrite (proj2 (nth_error_None _ _)); [reflexivity|].
    apply nth_error_None in E. rewrite length_combine, length_seq. lia.
Qed.

Lemma length_label_outputs id2label probs :
  length (label_outputs id2label probs) = length probs.
Proof.
  unfold label_outputs. rewrite length_map, length_combine, length_seq. lia.
Qed.






(** The first element of a list kept by [filter f] is the element at the
    first index where [f] holds. *)
Lemma filter_first {A : Type} (f : A -> bool) l e r :
  filter f l = e :: r ->
  exists i, nth_error l i = Some e /\ f e = true /\
    forall j x, (j < i)%nat -> nth_error l j = Some x -> f x = false.
Proof.
  revert e r. induction l as [|y l IH]; intros e r H; [discriminate|].
  cbn [filter] in H. destruct (f y) eqn:Ey.
  - injection H as <- _. exists 0%nat. split; [reflexivity|]. split; [exact Ey|].
    intros j x Hj. lia.
  - destruct (IH e r H) as (i & Hi & He & Hbefore).
    exists (S i). split; [exact Hi|]. split; [exact He|].
    intros [|j] x Hj Hx; cbn in Hx.
    + injection Hx as <-. exact Ey.
    + apply (Hbefore j x); [lia | exact Hx].
Qed.

(** The top of the ranking: for a non-empty NaN-free probability vector, the
    first printed pair is [(label_of id2label i, p)] where [p] is the
    probability of class [i], no class has a larger probability, and every
    class before [i] has a strictly smaller one ([i] is the first class of
    maximal probability). *)
Theorem rank_outputs_top (id2label : option HashMap) (probs : list f32) :
  Forall (fun p => is_nan p = false) probs -> probs <> [] ->
  exists i p rest,
    rank_outputs id2label probs = Some ((label_of id2label i, p) :: rest) /\
    nth_error probs i = Some p /\
    (forall j q, nth_error probs j = Some q -> f32_le q p) /\
    (forall j q, (j < i)%nat -> nth_error probs j = Some q -> f32_partial_cmp q p = Some Lt).
Proof.
  intros Hok Hne.
  destruct (rank_outputs_no_nan id2label probs Hok) as (out & E & P & S & F).
  destruct out as [|e rest].
  { apply Permutation_length in P. rewrite length_label_outputs in P.
    destruct probs; [congruence | discriminate]. }
  pose proof (F (order_key (snd e))) as Fe.
  cbn [filter] in Fe. rewrite Z.eqb_refl in Fe. symmetry in Fe.
  destruct (filter_first _ _ _ _ Fe) as (i & Hi & _ & Hbefore).
  rewrite label_outputs_nth in Hi.
  destruct (nth_error probs i) as [p|] eqn:Ep; [|discriminate].
  injection Hi as He. subst e.
  inversion S as [|? ? _ Hmax]; subst.
  (* every class's probability has an order key at most that of [p] *)
  assert (Hle : forall j q, nth_error probs j = Some q -> (order_key q <= order_key p)%Z).
  { intros j q Hq.
    assert (Hin : In (label_of id2label j, q) (label_outputs id2label probs)).
    { apply (nth_error_In _ j). rewrite label_outputs_nth, Hq. reflexivity. }
    apply (Permutation_in _ P) in Hin. destruct Hin as [He|Hin].
    - injection He as _ <-. lia.
    - exact (proj1 (Forall_forall _ _) Hmax _ Hin). }
  assert (Hp : is_nan p = false) by exact (proj1 (Forall_forall _ _) Hok p (nth_error_In _ _ Ep)).
  exists i, p, rest. split; [exact E|]. split; [exact Ep|]. split.
  - intros j q Hq. unfold f32_le.
    rewrite (f32_partial_cmp_no_nan q p
               (proj1 (Forall_forall _ _) Hok q (nth_error_In _ _ Hq)) Hp).
    specialize (Hle j q Hq).
    destruct (Z.compare_spec (order_key q) (order_key p));
      [right; reflexivity | left; reflexivity | lia].
  - intros j q Hj Hq.
    rewrite (f32_partial_cmp_no_nan q p
               (proj1 (Forall_forall _ _) Hok q (nth_error_In _ _ Hq)) Hp).
    specialize (Hle j q Hq).
    assert (Hb := Hbefore j (label_of id2label j, q) Hj).
    rewrite label_outputs_nth, Hq in Hb. specialize (Hb eq_refl).
    cbn in Hb. apply Z.eqb_neq in Hb.
    destruct (Z.compare_spec (order_key q) (order_key p)); [lia | reflexivity | lia].
Qed.

(** ** Instances of the further properties

    The CPU backend as the identity on the decoded floats, a 4-byte [F32] view
    holding [1.0], and an [F16] view. *)

Lemma required_tensor_unconvertible_fails_witness :
  let fc := fun (d : list f32) (_ : list nat) => Some d in
  let good := mkView F32 [1%nat] [x00; x00; x80; x3f] 0 in
  let bad := mkView F16 [2%nat] [x00; x3c; x00; x3c] 0 in
  let t : SafeTensors := fun n =>
    if String.eqb n "bert.pooler.dense.weight" then Some bad else Some good in
  to_tensor Little fc bad = None /\ BertClassifier_from_tensors Little fc t = None.
Proof.
  intros fc good bad t. split; [vm_compute; reflexivity|].
  apply (required_tensor_unconvertible_fails (list f32) Little fc t
           "bert.pooler.dense.weight" bad).
  - apply (sumbool_true (in_dec (list_eq_dec string_dec) _ _)). vm_compute. reflexivity.
  - reflexivity.
  - vm_compute. reflexivity.
Defined.

Lemma required_tensor_bad_view_fails_witness :
  let fc := fun (d : list f32) (_ : list nat) => Some d in
  let good := mkView F32 [1%nat] [x00; x00; x80; x3f] 0 in
  let bad := mkView F32 [1%nat] [x00; x00; x80; x3f; x00] 1 in
  let t : SafeTensors := fun n =>
    if String.eqb n "bert.embeddings.word_embeddings.weight" then Some bad else Some good in
  BertClassifier_from_tensors Little fc t = None.
Proof.
  intros fc good bad t.
  apply (required_tensor_bad_view_fails (list f32) Little fc t
           "bert.embeddings.word_embeddings.weight" bad).
  - apply (sumbool_true (in_dec (list_eq_dec string_dec) _ _)). vm_compute. reflexivity.
  - reflexivity.
  - right. split; discriminate.
Defined.

Lemma assembly_reads_only_required_witness :
  let fc := fun (d : list f32) (_ : list nat) => Some d in
  let good := mkView F32 [1%nat] [x00; x00; x80; x3f] 0 in
  let t1 : SafeTensors := fun _ => Some good in
  let t2 : SafeTensors := fun n =>
    if String.eqb n "cls.predictions.bias" then None else Some good in
  BertClassifier_from_tensors Little fc t1 = BertClassifier_from_tensors Little fc t2.
Proof.
  intros fc good t1 t2.
  apply (assembly_reads_only_required (list f32) Little fc t1 t2).
  intros n Hn. subst t1 t2. cbv beta.
  destruct (String.eqb_spec n "cls.predictions.bias") as [->|_]; [|reflexivity].
  exfalso. revert Hn. apply (sumbool_false (in_dec string_dec _ _)).
  vm_compute. reflexivity.
Defined.

Lemma assembly_address_independent_witness :
  let fc := fun (d : list f32) (_ : list nat) => Some d in
  let t : SafeTensors := fun _ => Some (mkView F32 [1%nat] [x00; x00; x80; x3f] 0) in
  BertClassifier_from_tensors Little fc (relocate t (fun _ => 1%nat)) =
  BertClassifier_from_tensors Little fc t.
Proof.
  intros fc t.
  apply (assembly_address_independent (list f32) fc t (fun _ => 1%nat)).
  intros n v E _. subst t. injection E as <-. reflexivity.
Defined.

Lemma assembled_layer_norm_epsilon_witness :
  let fc := fun (d : list f32) (_ : list nat) => Some d in
  let t : SafeTensors := fun _ => Some (mkView F32 [1%nat] [x00; x00; x80; x3f] 0) in
  match BertClassifier_from_tensors Little fc t with
  | Some m =>
      ln_epsilon (emb_layer_norm (embeddings (bert m))) = layer_norm_epsilon /\
      forall l, In l (layers (encoder (bert m))) ->
        ln_epsilon (attn_output_ln (attention l)) = layer_norm_epsilon /\
        ln_epsilon (mlp_output_ln (mlp l)) = layer_norm_epsilon
  | None => False
  end.
Proof.
  intros fc t.
  destruct (BertClassifier_from_tensors Little fc t) as [m|] eqn:E.
  - exact (assembled_layer_norm_epsilon (list f32) Little fc t m E).
  - subst fc t. vm_compute in E. discriminate E.
Defined.

Lemma assembly_succeeds_modern_witness :
  let fc := fun (d : list f32) (_ : list nat) => Some d in
  let good := mkView F32 [1%nat] [x00; x00; x80; x3f] 0 in
  let t : SafeTensors := fun n =>
    if String.prefix "cls." n then None else Some good in
  exists m, BertClassifier_from_tensors Little fc t = Some m.
Proof.
  intros fc good t.
  apply (assembly_succeeds_modern (list f32) Little fc t).
  assert (Hall : forallb (fun s => match s with
                                   | n :: _ => negb (String.prefix "cls." n)
                                   | [] => false
                                   end) required_tensors = true)
    by (vm_compute; reflexivity).
  rewrite forallb_forall in Hall.
  unfold loaded. apply Forall_forall. intros s Hs.
  apply in_map_iff in Hs as [s' [<- Hs']].
  specialize (Hall s' Hs').
  destruct s' as [|n rest]; [discriminate Hall|].
  destruct (String.prefix "cls." n) eqn:Ep; [discriminate Hall|].
  exists n, good, [f32_from_bits 1065353216]. cbn [firstn].
  split; [left; reflexivity|].
  split; [subst t; cbv beta; rewrite Ep; reflexivity | reflexivity].
Defined.

Lemma rank_outputs_top_witness :
  let probs := [f32_from_bits 1036831949; f32_from_bits 1061997773;
                f32_from_bits 1045220557; f32_from_bits 1061997773] in
  exists i p rest,
    rank_outputs None probs = Some ((label_of None i, p) :: rest) /\
    nth_error probs i = Some p /\
    (forall j q, nth_error probs j = Some q -> f32_le q p) /\
    (forall j q, (j < i)%nat -> nth_error probs j = Some q -> f32_partial_cmp q p = Some Lt).
Proof.
  intros probs. apply (rank_outputs_top None probs); [repeat constructor | discriminate].
Defined.
